(** * Relay service: a shallow embedding of the forwarding core

    The first part embeds the application, module by module:

    - [Py]         the Python primitives the handlers rely on
                   ([str.lower], truthiness, [in] on strings, the
                   exception classes);
    - [Eff]        a state-and-exception monad for code that talks to
                   the upstream or to the database and may raise;
    - [Httpx]      what the HTTP client makes of an answer before the
                   handlers see it: the decoded body and the header
                   dictionary;
    - [Relay]      app/controllers/relay_controller.py;
    - [Pydantic], [TypedRelay]
                   app/controllers/agency_relay_controller.py and
                   app/controllers/mall_relay_controller.py;
    - [Deps]       app/controllers/dependencies.py;
    - [Schemas], [Client]
                   app/today_pickup_client and
                   app/controllers/today_pickup_agency_controller.py;
    - [SHA256], [Users]
                   app/services/user_service.py,
                   app/repositories/user_repository.py and the
                   creation route of app/controllers/user_controller.py.

    The second part states and proves the properties.

    Header dictionaries are [gmap string string]; text and raw bytes are
    both [string], a sequence of 8-bit code points. *)

From Stdlib Require Import ZArith Ascii String List Lia.
From stdpp Require Import base option list gmap strings pretty.

Set Warnings "-register-all".

(** ** Python primitives *)

Module Py.

(** [str.lower()] on one Latin-1 code point: A-Z and the accented
    capitals U+00C0..U+00DE (U+00D7, the multiplication sign, apart)
    move up by 32; everything else is unchanged. *)
Definition lower_char (c : ascii) : ascii :=
  let n := nat_of_ascii c in
  if Nat.leb 65 n && Nat.leb n 90 then ascii_of_nat (n + 32)
  else if Nat.leb 192 n && Nat.leb n 222 && negb (Nat.eqb n 215)
       then ascii_of_nat (n + 32)
  else c.

Fixpoint lower (s : string) : string :=
  match s with
  | EmptyString => EmptyString
  | String c s' => String (lower_char c) (lower s')
  end.

(** [bool(s)] for a [str] or [bytes] value. *)
Definition truthy (s : string) : bool :=
  match s with EmptyString => false | String _ _ => true end.

(** [bool(x)] for an [Optional[str]]. *)
Definition truthy_opt (x : option string) : bool :=
  match x with None => false | Some s => truthy s end.

(** [s.startswith(p)] and [sub in s]. *)
Fixpoint startswith (p s : string) : bool :=
  match p, s with
  | EmptyString, _ => true
  | String a p', String b s' => Ascii.eqb a b && startswith p' s'
  | String _ _, EmptyString => false
  end.

Fixpoint contains (sub s : string) : bool :=
  startswith sub s ||
  match s with
  | EmptyString => false
  | String _ s' => contains sub s'
  end.

(** [c.isspace()] on one Latin-1 code point. *)
Definition isspace (c : ascii) : bool :=
  let n := nat_of_ascii c in
  (Nat.leb 9 n && Nat.leb n 13) || (Nat.leb 28 n && Nat.leb n 32)
  || Nat.eqb n 133 || Nat.eqb n 160.

(** [s.split()]: the maximal runs of characters that are not
    whitespace. [split_go s] is the run [s] starts with and the runs
    after it. *)
Fixpoint split_go (s : string) : string * list string :=
  match s with
  | EmptyString => (EmptyString, [])
  | String c s' =>
      let '(w, ws) := split_go s' in
      if isspace c then (EmptyString, if truthy w then w :: ws else ws)
      else (String c w, ws)
  end.

Definition split (s : string) : list string :=
  let '(w, ws) := split_go s in
  if truthy w then w :: ws else ws.





(** [s.encode()], the UTF-8 bytes of a text: one byte for a code point
    below 128, two for the others (the text of the model has code
    points below 256). *)
Definition encode_char (c : ascii) : string :=
  let n := nat_of_ascii c in
  if Nat.ltb n 128 then String c EmptyString
  else String (ascii_of_nat (192 + n / 64))
         (String (ascii_of_nat (128 + n mod 64)) EmptyString).

Fixpoint encode (s : string) : string :=
  match s with
  | EmptyString => EmptyString
  | String c s' => encode_char c +:+ encode s'
  end.

(** Exception classes that occur in the application, with the base
    class each one derives from (builtins, asyncio, json, httpx,
    fastapi, pydantic, sqlalchemy). *)
Inductive exn_class :=
| BaseException | KeyboardInterrupt | SystemExit | CancelledError
| Exception | ValueError | RuntimeError | KeyError | TypeError
| JSONDecodeError | ValidationError
| HTTPError | RequestError | TransportError | TimeoutException
| ConnectTimeout | ReadTimeout | WriteTimeout | PoolTimeout
| NetworkError | ConnectError | ReadError | WriteError | CloseError
| ProtocolError | LocalProtocolError | RemoteProtocolError
| ProxyError | UnsupportedProtocol | DecodingError | TooManyRedirects
| HTTPStatusErrorC | InvalidURL | CookieConflict
| StarletteHTTPException | HTTPExceptionC
| ValidationException | RequestValidationError
| SQLAlchemyError | StatementError | DBAPIError | DatabaseError
| IntegrityError.

Global Instance exn_class_eq_dec : EqDecision exn_class.
Proof. solve_decision. Defined.

Definition base (c : exn_class) : option exn_class :=
  match c with
  | BaseException => None
  | KeyboardInterrupt | SystemExit | CancelledError | Exception =>
      Some BaseException
  | ValueError | RuntimeError | KeyError | TypeError => Some Exception
  | JSONDecodeError | ValidationError => Some ValueError
  | HTTPError | InvalidURL | CookieConflict => Some Exception
  | RequestError | HTTPStatusErrorC => Some HTTPError
  | TransportError | DecodingError | TooManyRedirects => Some RequestError
  | TimeoutException | NetworkError | ProtocolError
  | ProxyError | UnsupportedProtocol => Some TransportError
  | ConnectTimeout | ReadTimeout | WriteTimeout | PoolTimeout =>
      Some TimeoutException
  | ConnectError | ReadError | WriteError | CloseError => Some NetworkError
  | LocalProtocolError | RemoteProtocolError => Some ProtocolError
  | StarletteHTTPException | ValidationException => Some Exception
  | HTTPExceptionC => Some StarletteHTTPException
  | RequestValidationError => Some ValidationException
  | SQLAlchemyError => Some Exception
  | StatementError => Some SQLAlchemyError
  | DBAPIError => Some StatementError
  | DatabaseError => Some DBAPIError
  | IntegrityError => Some DatabaseError
  end.

(** [issubclass c d]: walk the chain of base classes (at most 6 steps
    in the table above). *)
Fixpoint issubclass_upto (fuel : nat) (c d : exn_class) : bool :=
  bool_decide (c = d) ||
  match fuel, base c with
  | S fuel', Some b => issubclass_upto fuel' b d
  | _, _ => false
  end.

Definition issubclass : exn_class → exn_class → bool := issubclass_upto 8.

End Py.

(** ** Wire-level data *)

(** An [httpx.Response] as the handlers read it: [status_code],
    [content] (bytes) and [headers]. This is the client's reading of
    the answer, not the answer as the upstream sent it: [content] is
    the body after httpx decoded it, and httpx hands out the headers
    through [items()], the view of a dictionary it builds with one
    entry per lower-cased name; the field is that dictionary. How the
    two derive from what the upstream sent is in [Httpx] below. *)
Record UpstreamResponse := {
  rp_status_code : Z;
  rp_content : string;
  rp_headers : gmap string string
}.

(** JSON values, as [request.json()], [model_dump()] and
    [response.json()] produce them; [JNull] is Python's [None]. *)
Inductive json :=
| JNull
| JBool (b : bool)
| JNum (z : Z)
| JStr (s : string)
| JArr (items : list json)
| JObj (members : list (string * json)).

(** The arguments of one [httpx.AsyncClient.request] call. *)
Record Outbound := {
  ob_method : string;
  ob_url : string;
  ob_headers : gmap string string;
  ob_content : option string;
  ob_json : option json;
  ob_params : list (string * string)
}.

(** Exception values: the two that carry data the handlers or callers
    read, and any other exception as its class and its [str(e)]. *)
Inductive exn :=
| HTTPException (status_code : Z) (detail : string)
| HTTPStatusError (message : string) (response : UpstreamResponse)
| PyExc (c : Py.exn_class) (message : string).

Definition class_of (e : exn) : Py.exn_class :=
  match e with
  | HTTPException _ _ => Py.HTTPExceptionC
  | HTTPStatusError _ _ => Py.HTTPStatusErrorC
  | PyExc c _ => c
  end.

(** [str(e)], the text an f-string interpolates. *)
Definition str (e : exn) : string :=
  match e with
  | HTTPException s d => pretty s +:+ ": " +:+ d
  | HTTPStatusError m _ => m
  | PyExc _ m => m
  end.

Definition isinstance (e : exn) (c : Py.exn_class) : bool :=
  Py.issubclass (class_of e) c.

(** ** Effects: state passing with exceptions *)

Module Eff.

Inductive res (A : Type) :=
| Ok (a : A)
| Raise (e : exn).
Global Arguments Ok {A} a.
Global Arguments Raise {A} e.

Definition M (S A : Type) : Type := S → res A * S.

Definition ret {S A} (a : A) : M S A := λ s, (Ok a, s).

Definition bind {S A B} (m : M S A) (k : A → M S B) : M S B :=
  λ s, match m s with
       | (Ok a, s') => k a s'
       | (Raise e, s') => (Raise e, s')
       end.

Definition raise {S A} (e : exn) : M S A := λ s, (Raise e, s).

(** [try: m  except BaseException as e: h e] *)
Definition try_except {S A} (m : M S A) (h : exn → M S A) : M S A :=
  λ s, match m s with
       | (Ok a, s') => (Ok a, s')
       | (Raise e, s') => h e s'
       end.

(** [try: m  finally: f] for a clean-up [f] that does not raise. *)
Definition finally {S A} (m : M S A) (f : S → S) : M S A :=
  λ s, let '(r, s') := m s in (r, f s').

Definition lift {S A} (r : res A) : M S A := λ s, (r, s).

End Eff.

Import Eff.

(** The handlers are written with stdpp's monad notation
    [x ← m; k]. *)
Global Instance res_ret : MRet res := λ A a, Ok a.
Global Instance res_bind : MBind res := λ A B k r,
  match r with Ok a => k a | Raise e => Raise e end.

(** The handlers' view of the network: the log of outbound calls issued
    so far and the number of [httpx.AsyncClient] instances that are
    open. What the upstream answers is a parameter of every handler. *)
Record net := {
  calls : list Outbound;
  open_clients : nat
}.

Definition Net (A : Type) : Type := Eff.M net A.

Global Instance Net_ret : MRet Net := λ A, Eff.ret.
Global Instance Net_bind : MBind Net := λ A B k m, Eff.bind m k.

(** [await client.request(...)] (and [client.post], [client.get], ...,
    which are [request] with the method filled in). *)
Definition client_request (upstream : Outbound → res UpstreamResponse)
    (o : Outbound) : Net UpstreamResponse :=
  λ s, (upstream o,
        {| calls := calls s ++ [o]; open_clients := open_clients s |}).

(** [httpx.AsyncClient(...)] and [await client.aclose()]. *)
Definition open_client (s : net) : net :=
  {| calls := calls s; open_clients := S (open_clients s) |}.

Definition aclose (s : net) : net :=
  {| calls := calls s; open_clients := Nat.pred (open_clients s) |}.

(** [async with httpx.AsyncClient() as client: m] *)
Definition async_with_client {A} (m : Net A) : Net A :=
  λ s, Eff.finally m aclose (open_client s).

(** The status of the response the framework sends when a handler or
    one of its dependencies raises: an [HTTPException] carries its own,
    a request that fails parameter validation gets 422, anything else
    500. *)
Definition status_of_exn (e : exn) : Z :=
  match e with
  | HTTPException s _ => s
  | PyExc Py.RequestValidationError _ => 422
  | _ => 500
  end.

(** ** The HTTP client's reading of an answer

    [client.request] does not return the answer as the upstream sent
    it. httpx reads the body through the decoders that the answer's
    [content-encoding] names ([Response._get_content_decoder],
    [Response.aread]) and presents the header lines as a dictionary
    ([Headers.items]). Header text is ASCII. *)

Module Httpx.




(** [Headers.items()]: a dictionary with one entry per lower-cased
    name; the value of a later line with the same name is appended
    after a comma and a space. *)
Definition items_step (d : gmap string string) (h : string * string)
    : gmap string string :=
  let key := Py.lower h.1 in
  match d !! key with
  | Some v => <[key := v +:+ ", " +:+ h.2]> d
  | None => <[key := h.2]> d
  end.

Definition items (lines : list (string * string)) : gmap string string :=
  fold_left items_step lines ∅.






End Httpx.

(** ** app/controllers/relay_controller.py *)

Module Relay.

Definition BASE_URL : string := "https://admin.todaypickup.com/v2/api-docs/".

Definition HOP_BY_HOP_HEADERS : list string :=
  [ "connection"; "keep-alive"; "proxy-authenticate"; "proxy-authorization";
    "te"; "trailers"; "transfer-encoding"; "upgrade"; "host" ].

(** The incoming [starlette.requests.Request]: [request.method],
    [request.url.query], [request.headers.items()] (one pair per
    header line, repeated names included) and [await request.body()]. *)
Record Request := {
  rq_method : string;
  rq_query : string;
  rq_headers : list (string * string);
  rq_body : string
}.

(** The arguments handed to [starlette.responses.Response]. *)
Record Response := {
  content : string;
  status_code : Z;
  headers : gmap string string
}.

(** One round of the loop that fills [forward_headers]. *)
Definition forward_step (d : gmap string string) (h : string * string)
    : gmap string string :=
  if bool_decide (Py.lower h.1 ∈ HOP_BY_HOP_HEADERS) then d
  else <[h.1 := h.2]> d.

Definition forward_headers (items : list (string * string))
    : gmap string string :=
  fold_left forward_step items ∅.

(** The loop that fills [response_headers]. *)
Definition response_headers (items : list (string * string))
    : gmap string string :=
  fold_left (λ d h, <[h.1 := h.2]> d) items ∅.

Definition target_url (request : Request) (path : string) : string :=
  let target_url := BASE_URL +:+ path in
  if Py.truthy (rq_query request)
  then target_url +:+ "?" +:+ rq_query request
  else target_url.

Definition outbound (request : Request) (path : string) : Outbound :=
  let body := rq_body request in
  {| ob_method := rq_method request;
     ob_url := target_url request path;
     ob_headers := forward_headers (rq_headers request);
     ob_content := if Py.truthy body then Some body else None;
     ob_json := None;
     ob_params := [] |}.

(** The three [except] clauses, tried in order. An exception outside
    [Exception] matches none of them and propagates. *)
Definition handler {A} (e : exn) : Net A :=
  if isinstance e Py.TimeoutException then
    raise (HTTPException 504 ("Gateway timeout: " +:+ str e))
  else if isinstance e Py.RequestError then
    raise (HTTPException 502
      ("Bad gateway: Error connecting to the upstream server. " +:+ str e))
  else if isinstance e Py.Exception then
    raise (HTTPException 500 ("Internal server error: " +:+ str e))
  else raise e.

Definition relay_request (upstream : Outbound → res UpstreamResponse)
    (request : Request) (path : string) : Net Response :=
  async_with_client
    (try_except
       (rp ← client_request upstream (outbound request path);
        mret {| content := rp_content rp;
               status_code := rp_status_code rp;
               headers := response_headers (map_to_list (rp_headers rp)) |})
       handler).

(** The status the caller of the relay receives: the one of the
    handler's response, or the one of the exception it raised. *)
Definition local_status (r : res Response) : Z :=
  match r with
  | Ok resp => status_code resp
  | Raise e => status_of_exn e
  end.

End Relay.

(** ** pydantic models declared by the relay controllers *)

Module Pydantic.

(** [class X(BaseModel): pass]: a model without declared fields under
    pydantic's default configuration, which ignores the keys of the
    input it has no field for. An instance carries no data. *)
Inductive EmptyModel := empty_model.

(** Validation of a request body against such a model: any JSON
    object is accepted, anything else is a validation error. *)
Definition model_validate (body : json) : res EmptyModel :=
  match body with
  | JObj _ => Ok empty_model
  | _ => Raise (PyExc Py.RequestValidationError
                  "Input should be a valid dictionary or object")
  end.

(** [m.model_dump(by_alias=True)]: the declared fields, of which
    there are none. *)
Definition model_dump (m : EmptyModel) : json := JObj [].

End Pydantic.

(** A parameter declared with [...] as its default ([Header(...)],
    [Query(...)]): the framework rejects the request when it is absent. *)
Definition required (name : string) (v : option string) : res string :=
  match v with
  | Some x => Ok x
  | None => Raise (PyExc Py.RequestValidationError ("Field required: " +:+ name))
  end.

(** [response.headers.get(key)]: header names compare without case. *)
Definition headers_get (key : string) (headers : gmap string string)
    : option string :=
  snd <$> List.find (λ h, bool_decide (Py.lower h.1 = Py.lower key))
                    (map_to_list headers).

(** The arguments the typed relays hand to [Response]. *)
Record TypedResponse := {
  t_content : string;
  t_status_code : Z;
  t_media_type : option string
}.

(** The member of a JSON object under a key, [None] for a missing key
    or a value that is not an object. *)
Definition json_get (key : string) (j : json) : option json :=
  match j with
  | JObj members =>
      snd <$> List.find (λ m, bool_decide (m.1 = key)) members
  | _ => None
  end.

(** ** app/controllers/agency_relay_controller.py and
       app/controllers/mall_relay_controller.py *)

Module TypedRelay.
Section with_upstream.

Variable upstream : Outbound → res UpstreamResponse.
(** [json.loads] on a request body, [None] when it is not JSON. *)
Variable json_loads : string → option json.

Definition EXTERNAL_API_BASE_URL : string := "https://admin.todaypickup.com".

(** The two [except] clauses every endpoint ends with. *)
Definition handler {A} (e : exn) : Net A :=
  if isinstance e Py.RequestError then
    raise (HTTPException 500 ("Error connecting to external API: " +:+ str e))
  else if isinstance e Py.Exception then
    raise (HTTPException 500 ("An unexpected error occurred: " +:+ str e))
  else raise e.

Definition relay_response (response : UpstreamResponse) : TypedResponse :=
  {| t_content := rp_content response;
     t_status_code := rp_status_code response;
     t_media_type := headers_get "content-type" (rp_headers response) |}.

(** The body shared by the endpoints once their parameters are bound:
    [async with httpx.AsyncClient() as client: try: ... except ...]. *)
Definition forward (method path : string) (headers : gmap string string)
    (body : option json) (params : list (string * string))
    : Net TypedResponse :=
  async_with_client
    (try_except
       (response ← client_request upstream
           {| ob_method := method;
              ob_url := EXTERNAL_API_BASE_URL +:+ path;
              ob_headers := headers;
              ob_content := None;
              ob_json := body;
              ob_params := params |};
        mret (relay_response response))
       handler).

(** *** Agency group *)

Definition agency_headers (authorization agencyId accept : string)
    : gmap string string :=
  {[ "Authorization" := authorization;
     "agencyId" := agencyId;
     "Content-Type" := "application/json";
     "Accept" := accept ]}.

(** An endpoint without a body model: [json={}] is sent. *)
Definition agency_plain (method path accept : string)
    (authorization agencyId : option string) : Net TypedResponse :=
  authorization ← lift (required "authorization" authorization);
  agencyId ← lift (required "agencyId" agencyId);
  forward method path (agency_headers authorization agencyId accept)
    (Some (JObj [])) [].

(** An endpoint whose body is one of the controller's models:
    [json=dto.model_dump(by_alias=True)] is sent. *)
Definition agency_dto (method path : string) (body : json)
    (authorization agencyId : option string) : Net TypedResponse :=
  authorization ← lift (required "authorization" authorization);
  agencyId ← lift (required "agencyId" agencyId);
  dto ← lift (Pydantic.model_validate body);
  forward method path
    (agency_headers authorization agencyId "application/json")
    (Some (Pydantic.model_dump dto)) [].

Definition check_auth := agency_plain "POST" "/api/agency/auth" "application/json".
Definition auth_token := agency_dto "POST" "/api/agency/auth/token".
Definition update_delivery_ext_order_id := agency_dto "PUT" "/api/agency/delivery".
Definition return_delivery_flex := agency_dto "PUT" "/api/agency/delivery/flex".
Definition return_delivery_list_flex :=
  agency_dto "PUT" "/api/agency/delivery/list/flex".
Definition find_delivery_list (deliveryDt : string) :=
  agency_plain "POST" ("/api/agency/delivery/list/" +:+ deliveryDt)
    "application/json".
Definition update_delivery_state := agency_dto "PUT" "/api/agency/delivery/state".
Definition find_delivery (invoiceNumberList : string) :=
  agency_plain "POST" ("/api/agency/delivery/" +:+ invoiceNumberList) "*/*".
Definition post_number_save := agency_dto "POST" "/api/agency/postal/save".

(** *** Mall group *)

Definition mall_body_headers (authorization : string) : gmap string string :=
  {[ "Authorization" := authorization; "Content-Type" := "application/json" ]}.

Definition mall_get_headers (authorization : string) : gmap string string :=
  {[ "Authorization" := authorization; "Accept" := "application/json" ]}.

Definition mall_dto (path : string) (body : json)
    (authorization : option string) : Net TypedResponse :=
  authorization ← lift (required "authorization" authorization);
  dto ← lift (Pydantic.model_validate body);
  forward "POST" path (mall_body_headers authorization)
    (Some (Pydantic.model_dump dto)) [].

Definition mall_get (path : string) (params : list (string * string))
    (authorization : option string) : Net TypedResponse :=
  authorization ← lift (required "authorization" authorization);
  forward "GET" path (mall_get_headers authorization) None params.

(** [cancel_delivery] reads the body itself, inside its [try], and
    forwards the parsed value as it is. *)
Definition cancel_delivery (raw_body : string)
    (authorization : option string) : Net TypedResponse :=
  authorization ← lift (required "authorization" authorization);
  async_with_client
    (try_except
       (request_body ← lift
          (match json_loads raw_body with
           | Some j => Ok j
           | None => Raise (PyExc Py.JSONDecodeError "Expecting value")
           end);
        response ← client_request upstream
           {| ob_method := "POST";
              ob_url := EXTERNAL_API_BASE_URL +:+ "/api/mall/cancelDelivery";
              ob_headers := mall_body_headers authorization;
              ob_content := None;
              ob_json := Some request_body;
              ob_params := [] |};
        mret (relay_response response))
       handler).

Definition find_by_invoice (invoiceNumber : string) :=
  mall_get ("/api/mall/delivery/" +:+ invoiceNumber) [].
Definition find_by_invoice_list (invoiceNumberList : string) :=
  mall_get ("/api/mall/deliveryList/" +:+ invoiceNumberList) [].
Definition delivery_list_register := mall_dto "/api/mall/deliveryListRegister".
Definition delivery_register := mall_dto "/api/mall/deliveryRegister".

Definition possible_delivery (authorization : option string)
    (address : option string) (postalCode dawnDelivery : option string)
    : Net TypedResponse :=
  authorization ← lift (required "authorization" authorization);
  address ← lift (required "address" address);
  let params := [("address", address)] in
  let params := if Py.truthy_opt postalCode
                then params ++ [("postalCode", default "" postalCode)]
                else params in
  let params := if Py.truthy_opt dawnDelivery
                then params ++ [("dawnDelivery", default "" dawnDelivery)]
                else params in
  forward "GET" "/api/mall/possibleDelivery" (mall_get_headers authorization)
    None params.

Definition return_delivery := mall_dto "/api/mall/returnDelivery".
Definition return_list_register := mall_dto "/api/mall/returnListRegister".
Definition return_register := mall_dto "/api/mall/returnRegister".

End with_upstream.

Definition local_status (r : res TypedResponse) : Z :=
  match r with
  | Ok resp => t_status_code resp
  | Raise e => status_of_exn e
  end.

(** The endpoints that take a structured request body, by group. *)
Inductive dto_endpoint :=
| AuthToken | UpdateDeliveryExtOrderId | ReturnDeliveryFlex
| ReturnDeliveryListFlex | UpdateDeliveryState | PostNumberSave
| DeliveryListRegister | DeliveryRegister | ReturnDelivery
| ReturnListRegister | ReturnRegister.

Definition run_dto_endpoint (upstream : Outbound → res UpstreamResponse)
    (ep : dto_endpoint) (body : json) (authorization agencyId : option string)
    : Net TypedResponse :=
  match ep with
  | AuthToken => auth_token upstream body authorization agencyId
  | UpdateDeliveryExtOrderId =>
      update_delivery_ext_order_id upstream body authorization agencyId
  | ReturnDeliveryFlex => return_delivery_flex upstream body authorization agencyId
  | ReturnDeliveryListFlex =>
      return_delivery_list_flex upstream body authorization agencyId
  | UpdateDeliveryState => update_delivery_state upstream body authorization agencyId
  | PostNumberSave => post_number_save upstream body authorization agencyId
  | DeliveryListRegister => delivery_list_register upstream body authorization
  | DeliveryRegister => delivery_register upstream body authorization
  | ReturnDelivery => return_delivery upstream body authorization
  | ReturnListRegister => return_list_register upstream body authorization
  | ReturnRegister => return_register upstream body authorization
  end.

End TypedRelay.

(** ** app/controllers/dependencies.py *)

Module Deps.

(** Both parameters are declared [Optional[str] = Header(None)]: an
    absent header arrives as [None]. *)
Definition get_agency_auth_token (authorization : option string) : res string :=
  if negb (Py.truthy_opt authorization) then
    Raise (HTTPException 401 "Authorization header is missing")
  else Ok (default "" authorization).

Definition get_agency_id (agencyId : option string) : res string :=
  if negb (Py.truthy_opt agencyId) then
    Raise (HTTPException 400 "agencyId header is missing")
  else Ok (default "" agencyId).

(** [get_mall_auth_token]: the header must read [Bearer <token>]. *)
Definition INVALID_FORMAT : string :=
  "Invalid Authorization header format. Expected 'Bearer <token>'".

Definition get_mall_auth_token (authorization : option string) : res string :=
  if negb (Py.truthy_opt authorization) then
    Raise (HTTPException 401 "Authorization header is missing")
  else
    let parts := Py.split (default "" authorization) in
    if negb (Nat.eqb (length parts) 2)
       || negb (bool_decide (Py.lower (nth 0 parts "") = "bearer"))
    then Raise (HTTPException 401 INVALID_FORMAT)
    else Ok (nth 1 parts "").

End Deps.

(** ** app/today_pickup_client/schemas.py (the models the typed agency
       endpoints take) *)

Module Schemas.

Record AuthAgencyDTO := {
  accessKey : option string;
  nonce : option string;
  timestamp : option string
}.

Record DeliveryAgencyUpdateConsignDTO := {
  extOrderId : option string;
  invoiceNumber : option string;
  status : option string
}.

(** One member of [model_dump(exclude_none=True)]. *)
Definition member (key : string) (v : option string) : list (string * json) :=
  match v with
  | Some s => [(key, JStr s)]
  | None => []
  end.

Definition dump_AuthAgencyDTO (d : AuthAgencyDTO) : json :=
  JObj (member "accessKey" (accessKey d) ++ member "nonce" (nonce d)
        ++ member "timestamp" (timestamp d)).

Definition dump_DeliveryAgencyUpdateConsignDTO
    (d : DeliveryAgencyUpdateConsignDTO) : json :=
  JObj (member "extOrderId" (extOrderId d)
        ++ member "invoiceNumber" (invoiceNumber d)
        ++ member "status" (status d)).

End Schemas.

(** ** app/today_pickup_client/client.py, services.py and
       app/controllers/today_pickup_agency_controller.py *)

Module Client.
Section with_environment.

(** The setting read from the environment. *)
Variable TODAY_PICKUP_BASE_URL : string.
Variable upstream : Outbound → res UpstreamResponse.
(** [json.loads] on a response body, [None] when it is not JSON. *)
Variable json_loads : string → option json.
(** The text httpx puts into an [HTTPStatusError]. *)
Variable status_message : UpstreamResponse → string.

Record TodayPickupClientBase := {
  auth_token : option string;
  agency_id : option string
}.

(** [__init__] stores the credentials and opens an [httpx.AsyncClient]. *)
Definition init (auth_token agency_id : option string)
    : Net TodayPickupClientBase :=
  λ s, (Ok {| auth_token := auth_token; agency_id := agency_id |},
        open_client s).

(** [response.raise_for_status()]: returns on a 2xx status and raises
    [HTTPStatusError], carrying the response, on any other. *)
Definition raise_for_status (response : UpstreamResponse) : res unit :=
  if ((200 <=? rp_status_code response) && (rp_status_code response <=? 299))%Z
  then Ok ()
  else Raise (HTTPStatusError (status_message response) response).

(** [response.json()] *)
Definition response_json (response : UpstreamResponse) : res json :=
  match json_loads (rp_content response) with
  | Some j => Ok j
  | None => Raise (PyExc Py.JSONDecodeError "Expecting value")
  end.

(** The first lines of [_request]: the credential headers, then
    [request_headers.update(headers)]. *)
Definition request_headers (self : TodayPickupClientBase)
    (headers : option (gmap string string)) : gmap string string :=
  let request_headers : gmap string string := ∅ in
  let request_headers :=
    if Py.truthy_opt (auth_token self)
    then <["Authorization" := default "" (auth_token self)]> request_headers
    else request_headers in
  let request_headers :=
    if Py.truthy_opt (agency_id self)
    then <["agencyId" := default "" (agency_id self)]> request_headers
    else request_headers in
  match headers with
  | Some h => if bool_decide (h = ∅) then request_headers
              else h ∪ request_headers
  | None => request_headers
  end.

(** The call [_request] issues, with the keyword arguments the wrappers
    pass on: [json] and [params]. The code passes the endpoint alone;
    [ob_url] is the client's [base_url] followed by that endpoint, as
    written. httpx resolves the pair into the URL it requests: it
    quotes the path, removes dot segments and reads a [?] or a [#] in
    the endpoint as the start of a query or a fragment, so the two
    agree for an endpoint made of plain path segments only. *)
Definition outbound (self : TodayPickupClientBase) (method endpoint : string)
    (headers : option (gmap string string)) (json_kw : option json)
    (params : list (string * string)) : Outbound :=
  {| ob_method := method;
     ob_url := TODAY_PICKUP_BASE_URL +:+ endpoint;
     ob_headers := request_headers self headers;
     ob_content := None;
     ob_json := json_kw;
     ob_params := params |}.

(** [_request]: issue the call, raise on an error status, return
    [None] on 204 and the parsed body otherwise. Both [except] clauses
    log and re-raise. *)
Definition _request (self : TodayPickupClientBase) (method endpoint : string)
    (headers : option (gmap string string)) (json_kw : option json)
    (params : list (string * string)) : Net json :=
  try_except
    (response ← client_request upstream
        (outbound self method endpoint headers json_kw params);
     _ ← lift (raise_for_status response);
     if (rp_status_code response =? 204)%Z then mret JNull
     else lift (response_json response))
    (λ e, if isinstance e Py.HTTPStatusErrorC then raise e
          else if isinstance e Py.RequestError then raise e
          else raise e).

Definition close : net → net := aclose.

(** *** AgencyApiClient, MallApiClient *)

Definition AgencyApiClient (auth_token agency_id : string)
    : Net TodayPickupClientBase :=
  init (Some auth_token) (Some agency_id).

Definition MallApiClient (auth_token : string) : Net TodayPickupClientBase :=
  init (Some auth_token) None.

Definition check_auth (self : TodayPickupClientBase) : Net json :=
  _request self "POST" "/agency/auth" None None [].

Definition get_auth_token (self : TodayPickupClientBase)
    (auth_dto : Schemas.AuthAgencyDTO) : Net json :=
  _request self "POST" "/agency/auth/token" None
    (Some (Schemas.dump_AuthAgencyDTO auth_dto)) [].

Definition update_delivery_ext_order_id (self : TodayPickupClientBase)
    (delivery_update_dto : Schemas.DeliveryAgencyUpdateConsignDTO) : Net json :=
  _request self "PUT" "/agency/delivery" None
    (Some (Schemas.dump_DeliveryAgencyUpdateConsignDTO delivery_update_dto)) [].

Definition get_delivery_by_invoice (self : TodayPickupClientBase)
    (invoice_number : string) : Net json :=
  _request self "GET" ("/mall/delivery/" +:+ invoice_number) None None [].

(** *** TodayPickupAgencyService: a wrapper around the client *)

Record TodayPickupAgencyService := { client : TodayPickupClientBase }.

Definition TodayPickupAgencyService_init (auth_token agency_id : string)
    : Net TodayPickupAgencyService :=
  c ← AgencyApiClient auth_token agency_id;
  mret {| client := c |}.

(** *** today_pickup_agency_controller.py *)

(** The dependency resolves its own dependencies in the order of its
    parameters; the first one that raises ends the request. *)
Definition get_agency_service (authorization agencyId : option string)
    : Net TodayPickupAgencyService :=
  auth_token ← lift (Deps.get_agency_auth_token authorization);
  agency_id ← lift (Deps.get_agency_id agencyId);
  TodayPickupAgencyService_init auth_token agency_id.

(** [except HTTPException: raise] and [except Exception as e: ...]. *)
Definition handler {A} (e : exn) : Net A :=
  if isinstance e Py.HTTPExceptionC then raise e
  else if isinstance e Py.Exception then
    raise (HTTPException 500 ("An unexpected error occurred: " +:+ str e))
  else raise e.

(** The shape of the three endpoints: resolve the service, then
    [try: return await service.op(...)  except ...  finally: close]. *)
Definition endpoint (op : TodayPickupAgencyService → Net json)
    (authorization agencyId : option string) : Net json :=
  service ← get_agency_service authorization agencyId;
  Eff.finally (try_except (op service) handler) close.

Definition check_agency_auth :=
  endpoint (λ service, check_auth (client service)).

Definition get_agency_auth_token_api (payload : Schemas.AuthAgencyDTO) :=
  endpoint (λ service, get_auth_token (client service) payload).

Definition update_delivery_consign
    (payload : Schemas.DeliveryAgencyUpdateConsignDTO) :=
  endpoint (λ service, update_delivery_ext_order_id (client service) payload).

End with_environment.

(** The status the caller receives: 200 with the JSON the endpoint
    returned, or the status of the exception. *)
Definition local_status (r : res json) : Z :=
  match r with
  | Ok _ => 200
  | Raise e => status_of_exn e
  end.

(** The typed agency endpoints of this controller. *)
Inductive agency_endpoint :=
| CheckAgencyAuth
| GetAgencyAuthToken (payload : Schemas.AuthAgencyDTO)
| UpdateDeliveryConsign (payload : Schemas.DeliveryAgencyUpdateConsignDTO).

Definition run_agency_endpoint (base_url : string)
    (upstream : Outbound → res UpstreamResponse)
    (json_loads : string → option json)
    (status_message : UpstreamResponse → string)
    (ep : agency_endpoint) : option string → option string → Net json :=
  match ep with
  | CheckAgencyAuth =>
      check_agency_auth base_url upstream json_loads status_message
  | GetAgencyAuthToken p =>
      get_agency_auth_token_api base_url upstream json_loads status_message p
  | UpdateDeliveryConsign p =>
      update_delivery_consign base_url upstream json_loads status_message p
  end.

End Client.

(** ** The mall side of app/today_pickup_client/client.py and
       services.py *)

Module MallClient.
Section with_environment.

Variable TODAY_PICKUP_BASE_URL : string.
Variable upstream : Outbound → res UpstreamResponse.
Variable json_loads : string → option json.
Variable status_message : UpstreamResponse → string.

Local Abbreviation _request :=
  (Client._request TODAY_PICKUP_BASE_URL upstream json_loads status_message).

(** schemas.py: [GoodsReturnRequestDTO], one required string. *)
Record GoodsReturnRequestDTO := { invoiceNumber : string }.

Definition dump_GoodsReturnRequestDTO (d : GoodsReturnRequestDTO) : json :=
  JObj [("invoiceNumber", JStr (invoiceNumber d))].

Definition cancel_delivery (self : Client.TodayPickupClientBase)
    (goods_return_dto : GoodsReturnRequestDTO) : Net json :=
  _request self "POST" "/mall/cancelDelivery" None
    (Some (dump_GoodsReturnRequestDTO goods_return_dto)) [].

Definition find_by_invoice_list (self : Client.TodayPickupClientBase)
    (invoice_number_list_str : string) : Net json :=
  _request self "GET" ("/mall/deliveryList/" +:+ invoice_number_list_str)
    None None [].

(** [str(b)] for a [bool]. *)
Definition str_bool (b : bool) : string := if b then "True" else "False".

(** The query parameters of [possible_delivery]: the flag is rendered
    by [str(dawn_delivery).lower()] unless it is [None]. *)
Definition possible_delivery_params (address postal_code : string)
    (dawn_delivery : option bool) : list (string * string) :=
  let params := [("address", address); ("postalCode", postal_code)] in
  match dawn_delivery with
  | Some b => params ++ [("dawnDelivery", Py.lower (str_bool b))]
  | None => params
  end.

Definition possible_delivery (self : Client.TodayPickupClientBase)
    (address postal_code : string) (dawn_delivery : option bool) : Net json :=
  _request self "GET" "/mall/possibleDelivery" None None
    (possible_delivery_params address postal_code dawn_delivery).

Definition return_delivery (self : Client.TodayPickupClientBase)
    (goods_return_dto : GoodsReturnRequestDTO) : Net json :=
  _request self "POST" "/mall/returnDelivery" None
    (Some (dump_GoodsReturnRequestDTO goods_return_dto)) [].

(** [TodayPickupMallService]: a wrapper around the client. *)
Record TodayPickupMallService := { client : Client.TodayPickupClientBase }.

Definition TodayPickupMallService_init (auth_token : string)
    : Net TodayPickupMallService :=
  c ← Client.MallApiClient auth_token;
  mret {| client := c |}.

End with_environment.
End MallClient.

(** ** app/controllers/today_pickup_mall_controller.py *)

Module MallController.
Section with_environment.

Variable TODAY_PICKUP_BASE_URL : string.
Variable upstream : Outbound → res UpstreamResponse.
Variable json_loads : string → option json.
Variable status_message : UpstreamResponse → string.

Definition get_mall_service (authorization : option string)
    : Net MallClient.TodayPickupMallService :=
  auth_token ← lift (Deps.get_mall_auth_token authorization);
  MallClient.TodayPickupMallService_init auth_token.

Definition cancel_delivery (payload : MallClient.GoodsReturnRequestDTO)
    (authorization : option string) : Net json :=
  service ← get_mall_service authorization;
  Eff.finally
    (try_except
       (MallClient.cancel_delivery TODAY_PICKUP_BASE_URL upstream json_loads
          status_message (MallClient.client service) payload)
       Client.handler)
    Client.close.

(** The lookup raises its 404 inside the [try]; the first [except]
    clause lets it through. *)
Definition get_delivery_by_invoice (invoice_number : string)
    (authorization : option string) : Net json :=
  service ← get_mall_service authorization;
  Eff.finally
    (try_except
       (response ← Client.get_delivery_by_invoice TODAY_PICKUP_BASE_URL
                     upstream json_loads status_message
                     (MallClient.client service) invoice_number;
        match response with
        | JNull => raise (HTTPException 404 "Delivery not found")
        | _ => mret response
        end)
       Client.handler)
    Client.close.

End with_environment.
End MallController.

(** ** app/services/shipping_service.py *)

Module Shipping.
Section with_environment.

Variable TODAY_PICKUP_BASE_URL : string.
Variable upstream : Outbound → res UpstreamResponse.
Variable json_loads : string → option json.
Variable status_message : UpstreamResponse → string.

(** [except Exception as e: return {"error": str(e), "details": ...}] *)
Definition error_dict (details : string) (e : exn) : Net json :=
  if isinstance e Py.Exception then
    mret (JObj [("error", JStr (str e)); ("details", JStr details)])
  else raise e.

Definition get_shipment_status (invoice_number mall_auth_token : string)
    : Net json :=
  service ← MallClient.TodayPickupMallService_init mall_auth_token;
  Eff.finally
    (try_except
       (Client.get_delivery_by_invoice TODAY_PICKUP_BASE_URL upstream
          json_loads status_message (MallClient.client service) invoice_number)
       (error_dict "Failed to retrieve shipment status."))
    Client.close.

Definition check_agency_auth_status (agency_auth_token agency_id : string)
    : Net json :=
  service ← Client.TodayPickupAgencyService_init agency_auth_token agency_id;
  Eff.finally
    (try_except
       (Client.check_auth TODAY_PICKUP_BASE_URL upstream json_loads
          status_message (Client.client service))
       (error_dict "Failed to check agency authentication status."))
    Client.close.

End with_environment.
End Shipping.

(** ** app/services/todaypickup_service.py and
       app/controllers/todaypickup_controller.py *)

Module Proxy.
Section with_environment.

Variable upstream : Outbound → res UpstreamResponse.
Variable json_loads : string → option json.

Definition BASE_URL : string := "https://admin.todaypickup.com".

(** [TodayPickupService.request]: one call inside
    [async with httpx.AsyncClient()], nothing caught. *)
Definition request (method path : string)
    (params : option (list (string * string))) (data : option json)
    (headers : option (gmap string string)) : Net UpstreamResponse :=
  async_with_client
    (client_request upstream
       {| ob_method := method;
          ob_url := BASE_URL +:+ path;
          ob_headers := default ∅ headers;
          ob_content := None;
          ob_json := data;
          ob_params := default [] params |}).

(** [response.is_success] *)
Definition is_success (response : UpstreamResponse) : bool :=
  ((200 <=? rp_status_code response) && (rp_status_code response <=? 299))%Z.

(** The two routes end alike: the parsed body of a 2xx answer, or an
    [HTTPException] with the upstream's status and the body's text. *)
Definition answer (response : UpstreamResponse) : Net json :=
  if is_success response then
    match json_loads (rp_content response) with
    | Some j => mret j
    | None => raise (PyExc Py.JSONDecodeError "Expecting value")
    end
  else raise (HTTPException (rp_status_code response) (rp_content response)).

Definition proxy_get (full_path : string)
    (params : option (list (string * string))) : Net json :=
  response ← request "GET" ("/" +:+ full_path) params None None;
  answer response.

Definition proxy_post (full_path : string) (data : option json) : Net json :=
  response ← request "POST" ("/" +:+ full_path) None data None;
  answer response.

End with_environment.
End Proxy.

(** ** hashlib.sha256 (FIPS 180-4), on 32-bit words held in [Z] *)

Module SHA256.
Local Open Scope Z_scope.

Definition wrap (x : Z) : Z := x mod 2 ^ 32.
Definition add (x y : Z) : Z := wrap (x + y).
Definition rotr (n x : Z) : Z :=
  Z.lor (Z.shiftr x n) (wrap (Z.shiftl x (32 - n))).
Definition not32 (x : Z) : Z := Z.lxor x 0xffffffff.

Definition Ch (x y z : Z) : Z := Z.lxor (Z.land x y) (Z.land (not32 x) z).
Definition Maj (x y z : Z) : Z :=
  Z.lxor (Z.lxor (Z.land x y) (Z.land x z)) (Z.land y z).
Definition Sigma0 (x : Z) : Z :=
  Z.lxor (Z.lxor (rotr 2 x) (rotr 13 x)) (rotr 22 x).
Definition Sigma1 (x : Z) : Z :=
  Z.lxor (Z.lxor (rotr 6 x) (rotr 11 x)) (rotr 25 x).
Definition sigma0 (x : Z) : Z :=
  Z.lxor (Z.lxor (rotr 7 x) (rotr 18 x)) (Z.shiftr x 3).
Definition sigma1 (x : Z) : Z :=
  Z.lxor (Z.lxor (rotr 17 x) (rotr 19 x)) (Z.shiftr x 10).

(** The constants are defined as the standard defines them: the first
    32 bits of the fractional parts of the cube roots of the first 64
    primes for the rounds, and of the square roots of the first 8 for
    the initial hash value. *)
Definition is_prime (n : Z) : bool :=
  (1 <? n) && forallb (λ d, negb (n mod d =? 0))
                      (map Z.of_nat (seq 2 (Z.to_nat n - 2))).

Definition primes (count : nat) : list Z :=
  firstn count (List.filter is_prime (map Z.of_nat (seq 2 310))).

(** The integer cube root, one bit at a time from the highest. *)
Definition cbrt_step (x m : Z) (b : nat) : Z :=
  let m' := Z.lor m (2 ^ Z.of_nat b) in
  if m' * m' * m' <=? x then m' else m.

Definition cbrt (x : Z) : Z := fold_left (cbrt_step x) (rev (seq 0 36)) 0.

Definition K : list Z :=
  Eval vm_compute in map (λ p, wrap (cbrt (p * 2 ^ 96))) (primes 64).

(** The eight working variables, and the running hash value. *)
Record regs := Regs { ra : Z; rb : Z; rc : Z; rd : Z;
                      re : Z; rf : Z; rg : Z; rh : Z }.

Definition H0 : regs :=
  Eval vm_compute in
    match map (λ p, wrap (Z.sqrt (p * 2 ^ 64))) (primes 8) with
    | [a; b; c; d; e; f; g; h] => Regs a b c d e f g h
    | _ => Regs 0 0 0 0 0 0 0 0
    end.

(** Padding: a 1 bit, zeros up to 56 modulo 64 bytes, then the bit
    length as a 64-bit big-endian number. *)
Definition be_bytes (n : nat) (x : Z) : list Z :=
  map (λ i, Z.land (Z.shiftr x (8 * Z.of_nat i)) 0xff) (rev (seq 0 n)).

Definition pad (msg : list Z) : list Z :=
  let l := Z.of_nat (length msg) in
  msg ++ [0x80] ++ repeat 0 (Z.to_nat ((55 - l) mod 64)) ++ be_bytes 8 (8 * l).

Fixpoint be_words (bs : list Z) : list Z :=
  match bs with
  | b0 :: b1 :: b2 :: b3 :: rest =>
      Z.lor (Z.lor (Z.shiftl b0 24) (Z.shiftl b1 16)) (Z.lor (Z.shiftl b2 8) b3)
      :: be_words rest
  | _ => []
  end.

Fixpoint blocks (fuel : nat) (ws : list Z) : list (list Z) :=
  match fuel, ws with
  | S fuel', _ :: _ => firstn 16 ws :: blocks fuel' (skipn 16 ws)
  | _, _ => []
  end.

(** The message schedule: 48 more words after the block's 16. *)
Definition next_word (w : list Z) : Z :=
  let t := length w in
  add (add (sigma1 (nth (t - 2) w 0)) (nth (t - 7) w 0))
      (add (sigma0 (nth (t - 15) w 0)) (nth (t - 16) w 0)).

Fixpoint schedule (n : nat) (w : list Z) : list Z :=
  match n with
  | O => w
  | S n' => schedule n' (w ++ [next_word w])
  end.

Definition round (r : regs) (kw : Z * Z) : regs :=
  let t1 := add (add (add (rh r) (Sigma1 (re r)))
                     (add (Ch (re r) (rf r) (rg r)) kw.1)) kw.2 in
  let t2 := add (Sigma0 (ra r)) (Maj (ra r) (rb r) (rc r)) in
  Regs (add t1 t2) (ra r) (rb r) (rc r) (add (rd r) t1) (re r) (rf r) (rg r).

Definition compress (hv : regs) (block : list Z) : regs :=
  let r := fold_left round (combine K (schedule 48 block)) hv in
  Regs (add (ra hv) (ra r)) (add (rb hv) (rb r))
       (add (rc hv) (rc r)) (add (rd hv) (rd r))
       (add (re hv) (re r)) (add (rf hv) (rf r))
       (add (rg hv) (rg r)) (add (rh hv) (rh r)).

Definition digest (msg : list Z) : regs :=
  let ws := be_words (pad msg) in
  fold_left compress (blocks (length ws) ws) H0.

Definition hex_digit (x : Z) : ascii :=
  match x with
  | 0 => "0" | 1 => "1" | 2 => "2" | 3 => "3" | 4 => "4" | 5 => "5"
  | 6 => "6" | 7 => "7" | 8 => "8" | 9 => "9" | 10 => "a" | 11 => "b"
  | 12 => "c" | 13 => "d" | 14 => "e" | _ => "f"
  end%char.

Definition nibble (x k : Z) : ascii :=
  hex_digit (Z.land (Z.shiftr x (4 * k)) 15).

Definition hex8 (x : Z) (rest : string) : string :=
  String (nibble x 7) (String (nibble x 6) (String (nibble x 5)
    (String (nibble x 4) (String (nibble x 3) (String (nibble x 2)
      (String (nibble x 1) (String (nibble x 0) rest))))))).

Definition hex (r : regs) : string :=
  hex8 (ra r) (hex8 (rb r) (hex8 (rc r) (hex8 (rd r)
    (hex8 (re r) (hex8 (rf r) (hex8 (rg r) (hex8 (rh r) EmptyString))))))).

Definition bytes_of (s : string) : list Z :=
  map (λ c, Z.of_nat (nat_of_ascii c)) (list_ascii_of_string s).

(** [hashlib.sha256(data).hexdigest()] *)
Definition hexdigest (data : string) : string := hex (digest (bytes_of data)).

End SHA256.

(** ** app/repositories/user_repository.py, app/services/user_service.py
       and the creation route of app/controllers/user_controller.py *)

Module Users.

(** A row of the user table. A [User] that has not been inserted yet
    has no identifier. *)
Record User := {
  id : option Z;
  email : string;
  username : string;
  hashed_password : string
}.

(** The database session: the committed rows, the objects added but
    not yet flushed, and the next identifier the table hands out. *)
Record Session := {
  table : list User;
  new : list User;
  next_id : Z
}.

Definition DB (A : Type) : Type := Eff.M Session A.

Global Instance DB_ret : MRet DB := λ A, Eff.ret.
Global Instance DB_bind : MBind DB := λ A B k m, Eff.bind m k.

(** Modelled from the spec: the constraints of the user table, whose
    declaration (app/models/user.py) is not among the sources; the
    spec has: email and username are unique. *)
Definition violates_unique (rows : list User) (u : User) : bool :=
  existsb (λ r, String.eqb (email r) (email u)
                || String.eqb (username r) (username u)) rows.

(** The INSERTs of one flush, in the order the objects were added. *)
Fixpoint insert_all (rows : list User) (next : Z) (pending : list User)
    : option (list User * Z) :=
  match pending with
  | [] => Some (rows, next)
  | u :: rest =>
      if violates_unique rows u then None
      else insert_all
             (rows ++ [{| id := Some next; email := email u;
                          username := username u;
                          hashed_password := hashed_password u |}])
             (next + 1)%Z rest
  end.

(** [db.add(user)] *)
Definition add (user : User) : DB unit :=
  λ s, (Ok (), {| table := table s; new := new s ++ [user];
                  next_id := next_id s |}).

(** [db.commit()]: a failed flush leaves the table as it was and the
    session with its pending objects, and raises [IntegrityError]. *)
Definition commit : DB unit :=
  λ s, match insert_all (table s) (next_id s) (new s) with
       | Some (rows, next) =>
           (Ok (), {| table := rows; new := []; next_id := next |})
       | None =>
           (Raise (PyExc Py.IntegrityError "UNIQUE constraint failed"), s)
       end.

(** [db.rollback()] *)
Definition rollback : DB unit :=
  λ s, (Ok (), {| table := table s; new := []; next_id := next_id s |}).

(** [db.refresh(user)]: the object takes the state of its row, the
    last one inserted under its email. *)
Definition refresh (user : User) : DB User :=
  λ s, (Ok (default user
              (List.find (λ r, String.eqb (email r) (email user))
                         (rev (table s)))), s).

Definition DUPLICATE : string :=
  "이미 존재하는 이메일 또는 사용자 이름입니다.".

(** [UserRepository.create] *)
Definition create (email username hashed_password : string) : DB User :=
  let user := {| id := None; email := email; username := username;
                 hashed_password := hashed_password |} in
  _ ← add user;
  try_except
    (_ ← commit; refresh user)
    (λ e, if isinstance e Py.IntegrityError then
            _ ← rollback; raise (PyExc Py.ValueError DUPLICATE)
          else raise e).

Record UserCreate := {
  uc_email : string;
  uc_username : string;
  uc_password : string
}.

(** [UserService._hash_password] and [UserService.create_user]. The
    response schema is not among the sources; the service's result is
    kept as the refreshed row it is built from. *)
Definition _hash_password (password : string) : string :=
  SHA256.hexdigest (Py.encode password).

Definition create_user (user_data : UserCreate) : DB User :=
  let hashed_password := _hash_password (uc_password user_data) in
  create (uc_email user_data) (uc_username user_data) hashed_password.

(** [UserController.create_user] *)
Definition controller_create_user (user_data : UserCreate) : DB User :=
  try_except (create_user user_data)
    (λ e, if isinstance e Py.ValueError then
            raise (HTTPException 400 (str e))
          else raise e).

(** *** The rest of [UserRepository]

    No object is pending when these run: [create] leaves none behind. *)

Definition has_id (user_id : Z) (r : User) : bool :=
  bool_decide (id r = Some user_id).

(** [db.query(User).filter(User.id == user_id).first()] and its two
    siblings. *)
Definition get_by_id (user_id : Z) : DB (option User) :=
  λ s, (Ok (List.find (has_id user_id) (table s)), s).

Definition get_by_email (e : string) : DB (option User) :=
  λ s, (Ok (List.find (λ r, String.eqb (email r) e) (table s)), s).

Definition get_by_username (n : string) : DB (option User) :=
  λ s, (Ok (List.find (λ r, String.eqb (username r) n) (table s)), s).

(** The loop of [update] over the keyword arguments the service passes
    ([email], [username], [hashed_password]): a value that is [None]
    is skipped. *)
Definition setattrs (user : User)
    (kw_email kw_username kw_hashed_password : option string) : User :=
  {| id := id user;
     email := default (email user) kw_email;
     username := default (username user) kw_username;
     hashed_password := default (hashed_password user) kw_hashed_password |}.

(** Modelled from the spec: the unique constraints of the user table
    (app/models/user.py is not among the sources) as they bear on the
    row being changed: no other row may hold its email or user name. *)
Definition collides_with_other (rows : list User) (user_id : Z) (u : User)
    : bool :=
  existsb (λ r, negb (has_id user_id r)
                && (String.eqb (email r) (email u)
                    || String.eqb (username r) (username u))) rows.

(** [db.commit()] with one changed object: the row under the
    identifier, the primary key, takes the object's state. When the
    change breaks a constraint the table is left as it was and
    [IntegrityError] is raised. The real session must then be rolled
    back before it can be used again, which the record does not track:
    [update] has no handler, so the request ends with the exception and
    the session with the request. *)
Definition commit_changed (user_id : Z) (u : User) : DB unit :=
  λ s, if collides_with_other (table s) user_id u then
         (Raise (PyExc Py.IntegrityError "UNIQUE constraint failed"), s)
       else
         (Ok (), {| table := map (λ r, if has_id user_id r then u else r)
                                 (table s);
                    new := new s; next_id := next_id s |}).

Definition update (user_id : Z)
    (kw_email kw_username kw_hashed_password : option string)
    : DB (option User) :=
  user ← get_by_id user_id;
  match user with
  | None => mret None
  | Some user =>
      let user := setattrs user kw_email kw_username kw_hashed_password in
      _ ← commit_changed user_id user;
      mret (Some user)
  end.

(** [db.delete(user); db.commit()] for the row under the identifier. *)
Definition commit_deleted (user_id : Z) : DB unit :=
  λ s, (Ok (),
        {| table := List.filter (λ r, negb (has_id user_id r)) (table s);
           new := new s; next_id := next_id s |}).

Definition delete (user_id : Z) : DB bool :=
  user ← get_by_id user_id;
  match user with
  | None => mret false
  | Some _ => _ ← commit_deleted user_id; mret true
  end.

(** *** The rest of [UserService] *)

(** [user_data.model_dump(exclude_unset=True)] for an update: each of
    the three fields is given or not. The schema is not among the
    sources; a password given as null is outside this record. *)
Record UserUpdate := {
  uu_email : option string;
  uu_username : option string;
  uu_password : option string
}.

Definition get_user (user_id : Z) : DB (option User) := get_by_id user_id.

Definition update_user (user_id : Z) (user_data : UserUpdate)
    : DB (option User) :=
  update user_id (uu_email user_data) (uu_username user_data)
    (_hash_password <$> uu_password user_data).

Definition delete_user (user_id : Z) : DB bool := delete user_id.

(** *** The rest of [UserController] *)

Definition NOT_FOUND : string := "사용자를 찾을 수 없습니다.".

Definition or_404 {A} (r : option A) : DB A :=
  match r with
  | Some a => mret a
  | None => raise (HTTPException 404 NOT_FOUND)
  end.

Definition controller_get_user (user_id : Z) : DB User :=
  user ← get_user user_id; or_404 user.

Definition controller_update_user (user_id : Z) (user_data : UserUpdate)
    : DB User :=
  user ← update_user user_id user_data; or_404 user.

Definition controller_delete_user (user_id : Z) : DB unit :=
  deleted ← delete_user user_id;
  if deleted : bool then mret () else raise (HTTPException 404 NOT_FOUND).

(** The status the caller of a user route receives. *)
Definition local_status {A} (ok : Z) (r : res A) : Z :=
  match r with
  | Ok _ => ok
  | Raise e => status_of_exn e
  end.

End Users.

(** ** Vocabulary of the statements *)

(** Two header names match without regard to case. *)
Definition ci_equal (a b : string) : Prop := Py.lower a = Py.lower b.

(** A header name matches one of the excluded names. *)
Definition excluded (name : string) : Prop :=
  ∃ h, h ∈ Relay.HOP_BY_HOP_HEADERS ∧ ci_equal name h.

(** The value of the last line that carries [name], if any. *)
Fixpoint last_value (name : string) (items : list (string * string))
    : option string :=
  match items with
  | [] => None
  | h :: rest =>
      match last_value name rest with
      | Some v => Some v
      | None => if decide (h.1 = name) then Some h.2 else None
      end
  end.

(** A network on which nothing has happened yet. *)
Definition idle : net := {| calls := []; open_clients := 0 |}.

(** A string has a whitespace character; a string is made of
    whitespace only. *)
Fixpoint has_space (s : string) : bool :=
  match s with
  | EmptyString => false
  | String c s' => Py.isspace c || has_space s'
  end.

Fixpoint only_space (s : string) : bool :=
  match s with
  | EmptyString => true
  | String c s' => Py.isspace c && only_space s'
  end.

(** A status is in the 2xx range. *)
Definition is_2xx (status : Z) : Prop := (200 ≤ status ≤ 299)%Z.






(** A session between two calls of the repository on a table that
    honours its keys: nothing is pending, no two rows share an email, a
    user name or an identifier, and every identifier was handed out
    before the next one. *)
Record consistent (s : Users.Session) : Prop := {
  c_new : Users.new s = [];
  c_emails : NoDup (map Users.email (Users.table s));
  c_usernames : NoDup (map Users.username (Users.table s));
  c_ids : NoDup (map Users.id (Users.table s));
  c_fresh : Forall (λ r, ∃ k, Users.id r = Some k ∧ (k < Users.next_id s)%Z)
                   (Users.table s)
}.

(** * Properties *)

(** ** Strings and exception classes *)

Lemma append_empty_r (s : string) : s +:+ "" = s.
Proof.
  induction s as [|a s IH]; [done|].
  change (String a s +:+ "") with (String a (s +:+ "")). by rewrite IH.
Qed.

Lemma append_assoc (s t u : string) : (s +:+ t) +:+ u = s +:+ t +:+ u.
Proof.
  induction s as [|a s IH]; [done|].
  change ((String a s +:+ t) +:+ u) with (String a ((s +:+ t) +:+ u)).
  by rewrite IH.
Qed.

Lemma startswith_app (p s : string) : Py.startswith p (p +:+ s) = true.
Proof.
  induction p as [|a p IH]; [done|].
  change (String a p +:+ s) with (String a (p +:+ s)).
  simpl. by rewrite Ascii.eqb_refl, IH.
Qed.

Lemma contains_startswith (p s : string) :
  Py.startswith p s = true → Py.contains p s = true.
Proof. intros H. destruct s; simpl in *; by rewrite H. Qed.

Lemma contains_app (p s : string) : Py.contains p (p +:+ s) = true.
Proof. apply contains_startswith, startswith_app. Qed.

Lemma truthy_false (s : string) : Py.truthy s = false ↔ s = "".
Proof. destruct s; simpl; split; congruence. Qed.

Lemma truthy_true (s : string) : Py.truthy s = true ↔ s ≠ "".
Proof. destruct s; simpl; split; congruence. Qed.

(** A timeout is a request error, and a request error an [Exception]:
    the order of the [except] clauses matters. *)
Lemma timeout_is_request_error (e : exn) :
  isinstance e Py.TimeoutException = true → isinstance e Py.RequestError = true.
Proof. destruct e as [| |c]; [done..|]. by destruct c. Qed.

Lemma request_error_is_exception (e : exn) :
  isinstance e Py.RequestError = true → isinstance e Py.Exception = true.
Proof. destruct e as [| |c]; [done..|]. by destruct c. Qed.

(** ** The generic relay *)

Section relay.

Variable upstream : Outbound → res UpstreamResponse.

Ltac run_relay :=
  unfold Relay.relay_request, async_with_client, Eff.finally, try_except,
    mbind, Net_bind, Eff.bind, client_request, mret, Net_ret, Eff.ret,
    aclose, open_client;
  simpl.

(** Whatever the upstream does, the handler issues the call built by
    [Relay.outbound], once, and closes the client it opened. *)
Lemma relay_request_net request path s :
  calls (Relay.relay_request upstream request path s).2
    = calls s ++ [Relay.outbound request path]
  ∧ open_clients (Relay.relay_request upstream request path s).2
    = open_clients s.
Proof.
  run_relay. destruct (upstream _) as [rp|e]; simpl; [done|].
  unfold Relay.handler, raise.
  by destruct (isinstance e Py.TimeoutException),
    (isinstance e Py.RequestError), (isinstance e Py.Exception).
Qed.


Lemma relay_request_raise request path s e :
  upstream (Relay.outbound request path) = Raise e →
  (Relay.relay_request upstream request path s).1
    = (Relay.handler (A:=Relay.Response) e s).1.
Proof.
  intros H. run_relay. rewrite H. simpl.
  unfold Relay.handler, raise.
  by destruct (isinstance e Py.TimeoutException),
    (isinstance e Py.RequestError), (isinstance e Py.Exception).
Qed.

(** C8. The outbound URL is the upstream base followed by the
    remaining path, and by "?" and the query string exactly when the
    query string is not empty; the body is sent if and only if it is
    not empty; exactly one outbound call is issued, with the method
    of the incoming request. *)
Theorem relay_request_outbound_call request path s :
  ∃ o, calls (Relay.relay_request upstream request path s).2 = calls s ++ [o]
    ∧ ob_method o = Relay.rq_method request
    ∧ ob_url o = Relay.BASE_URL +:+ path +:+
        (if decide (Relay.rq_query request = "") then ""
         else "?" +:+ Relay.rq_query request)
    ∧ ob_content o =
        (if decide (Relay.rq_body request = "") then None
         else Some (Relay.rq_body request)).
Proof.
  exists (Relay.outbound request path).
  split; [apply relay_request_net|]. split; [done|]. split.
  - unfold Relay.outbound, Relay.target_url; simpl.
    destruct (Relay.rq_query request) as [|a q]; simpl.
    + by rewrite append_empty_r.
    + by rewrite append_assoc.
  - unfold Relay.outbound; simpl.
    by destruct (Relay.rq_body request).
Qed.

End relay.

(** ** Header dictionaries *)

Lemma excluded_lower (name : string) :
  excluded name ↔ Py.lower name ∈ Relay.HOP_BY_HOP_HEADERS.
Proof.
  assert (Forall (λ h, Py.lower h = h) Relay.HOP_BY_HOP_HEADERS) as Hlow
    by (repeat (apply List.Forall_cons; [by vm_compute|]);
        apply List.Forall_nil).
  rewrite Forall_forall in Hlow. split.
  - intros (h & Hin & Heq). unfold ci_equal in Heq.
    by rewrite Heq, (Hlow h).
  - intros Hin. exists (Py.lower name). split; [done|].
    unfold ci_equal. symmetry. by apply Hlow.
Qed.

(** After the loop, an excluded name has the entry it had before, and
    any other name the value of its last line. *)
Lemma forward_step_lookup items (d : gmap string string) name :
  fold_left Relay.forward_step items d !! name
  = if bool_decide (Py.lower name ∈ Relay.HOP_BY_HOP_HEADERS) then d !! name
    else from_option Some (d !! name) (last_value name items).
Proof.
  revert d. induction items as [|h rest IH]; intros d; simpl.
  { by case_bool_decide. }
  rewrite IH. unfold Relay.forward_step.
  case_bool_decide as Hname; case_bool_decide as Hh; try done.
  - rewrite lookup_insert_ne; [done|]. by intros <-.
  - destruct (last_value name rest); simpl; [done|].
    case_decide as Heq; [by rewrite <- Heq in Hname|done].
  - destruct (last_value name rest); simpl; [done|].
    case_decide as Heq; simpl.
    + by rewrite Heq, lookup_insert_eq.
    + by rewrite lookup_insert_ne.
Qed.





(** ** The generic relay: headers, success, failure *)

(** C2, as the code has it. No header whose name matches an excluded
    name without regard to case is in the outbound header set; every
    other name of the inbound request is in it, unchanged, with the
    value of the last inbound line that carries the name. A header
    whose name occurs on one line only is thus copied unchanged. *)
Theorem relay_request_forwarded_headers
    (upstream : Outbound → res UpstreamResponse) request path s :
  ∃ o, calls (Relay.relay_request upstream request path s).2 = calls s ++ [o]
    ∧ ∀ name,
        (excluded name → ob_headers o !! name = None)
        ∧ (¬ excluded name →
             ob_headers o !! name = last_value name (Relay.rq_headers request)).
Proof.
  exists (Relay.outbound request path).
  split; [apply relay_request_net|]. intros name.
  unfold Relay.outbound, Relay.forward_headers; simpl.
  rewrite forward_step_lookup, lookup_empty.
  split; intros H; rewrite excluded_lower in H.
  - by rewrite bool_decide_true.
  - rewrite bool_decide_false; [|done]. by destruct (last_value _ _).
Qed.

(** C2 as stated fails on a request that repeats a header name: the
    first of two [accept] lines is not in the outbound header set. *)
Lemma relay_request_repeated_header_lost :
  ¬ (∀ (upstream : Outbound → res UpstreamResponse) request path s name value,
       (name, value) ∈ Relay.rq_headers request → ¬ excluded name →
       ∃ o, calls (Relay.relay_request upstream request path s).2
              = calls s ++ [o]
            ∧ ob_headers o !! name = Some value).
Proof.
  intros H.
  destruct (H (λ _, Raise (PyExc Py.ConnectError "refused"))
              {| Relay.rq_method := "GET"; Relay.rq_query := "";
                 Relay.rq_headers := [("accept", "text/html");
                                      ("accept", "application/json")];
                 Relay.rq_body := "" |}
              "docs" idle "accept" "text/html") as (o & Hcalls & Hlook).
  - left.
  - rewrite excluded_lower. apply (proj1 (bool_decide_eq_false _)).
    by vm_compute.
  - rewrite (proj1 (relay_request_net _ _ _ _)) in Hcalls.
    simpl in Hcalls. injection Hcalls as <-.
    by vm_compute in Hlook.
Qed.










(** C4. When the outbound call raises, the caller gets 504 and a detail
    containing "Gateway timeout" for a timeout, 502 and "Bad gateway"
    for any other request error, 500 and "Internal server error" for
    any other exception; in each case the call was issued once. *)
Theorem relay_request_failure
    (upstream : Outbound → res UpstreamResponse) request path s e :
  upstream (Relay.outbound request path) = Raise e →
  calls (Relay.relay_request upstream request path s).2
    = calls s ++ [Relay.outbound request path]
  ∧ (isinstance e Py.TimeoutException = true →
       ∃ detail,
         (Relay.relay_request upstream request path s).1
           = Raise (HTTPException 504 detail)
         ∧ Py.contains "Gateway timeout" detail = true)
  ∧ (isinstance e Py.TimeoutException = false →
     isinstance e Py.RequestError = true →
       ∃ detail,
         (Relay.relay_request upstream request path s).1
           = Raise (HTTPException 502 detail)
         ∧ Py.contains "Bad gateway" detail = true)
  ∧ (isinstance e Py.RequestError = false →
     isinstance e Py.Exception = true →
       ∃ detail,
         (Relay.relay_request upstream request path s).1
           = Raise (HTTPException 500 detail)
         ∧ Py.contains "Internal server error" detail = true).
Proof.
  intros H. split; [apply relay_request_net|].
  rewrite (relay_request_raise _ _ _ _ _ H). unfold Relay.handler, raise.
  repeat split.
  - intros ->. eexists. split; [done|].
    by apply (contains_app "Gateway timeout" (String ":" _)).
  - intros -> ->. eexists. split; [done|].
    by apply (contains_app "Bad gateway" (String ":" _)).
  - intros Hreq Hexc.
    destruct (isinstance e Py.TimeoutException) eqn:Ht.
    { apply timeout_is_request_error in Ht. congruence. }
    rewrite Hreq, Hexc. eexists. split; [done|].
    by apply (contains_app "Internal server error" (String ":" _)).
Qed.

Lemma relay_request_failure_witness :
  ∃ detail,
    (Relay.relay_request
       (λ _, Raise (PyExc Py.ReadTimeout "Request timed out"))
       {| Relay.rq_method := "GET"; Relay.rq_query := "";
          Relay.rq_headers := []; Relay.rq_body := "" |}
       "timeout/test" idle).1 = Raise (HTTPException 504 detail)
    ∧ Py.contains "Gateway timeout" detail = true.
Proof.
  apply (relay_request_failure
           (λ _, Raise (PyExc Py.ReadTimeout "Request timed out"))
           {| Relay.rq_method := "GET"; Relay.rq_query := "";
              Relay.rq_headers := []; Relay.rq_body := "" |}
           "timeout/test" idle (PyExc Py.ReadTimeout "Request timed out")
           eq_refl).
  reflexivity.
Defined.

(** ** The typed relays of the two relay controllers *)

Ltac run_net :=
  unfold async_with_client, Eff.finally, try_except, lift, raise,
    mbind, Net_bind, Eff.bind, client_request, mret, Net_ret, Eff.ret,
    aclose, open_client;
  simpl.

Lemma typed_handler_state {A} (e : exn) (s : net) :
  (TypedRelay.handler (A:=A) e s).2 = s.
Proof.
  unfold TypedRelay.handler, raise.
  by destruct (isinstance e Py.RequestError), (isinstance e Py.Exception).
Qed.

(** Once the parameters are bound, an endpoint issues the one call it
    was written for, whatever the upstream answers. *)
Lemma forward_net upstream method path headers body params s :
  calls (TypedRelay.forward upstream method path headers body params s).2
  = calls s ++ [ {| ob_method := method;
                    ob_url := TypedRelay.EXTERNAL_API_BASE_URL +:+ path;
                    ob_headers := headers; ob_content := None;
                    ob_json := body; ob_params := params |} ].
Proof.
  unfold TypedRelay.forward. run_net.
  destruct (upstream _) as [rp|e]; simpl; [done|].
  pose proof (typed_handler_state (A:=TypedResponse) e) as Hst.
  match goal with
  | |- context [TypedRelay.handler e ?st] =>
      specialize (Hst st); destruct (TypedRelay.handler e st)
  end.
  simpl in *. by subst.
Qed.

(** An endpoint with a body model sends the empty object, whatever
    members the incoming object has. *)
Lemma agency_dto_net upstream method path members a g s :
  calls (TypedRelay.agency_dto upstream method path (JObj members)
           (Some a) (Some g) s).2
  = calls s ++ [ {| ob_method := method;
                    ob_url := TypedRelay.EXTERNAL_API_BASE_URL +:+ path;
                    ob_headers :=
                      TypedRelay.agency_headers a g "application/json";
                    ob_content := None; ob_json := Some (JObj []);
                    ob_params := [] |} ].
Proof. apply forward_net. Qed.

Lemma mall_dto_net upstream path members a s :
  calls (TypedRelay.mall_dto upstream path (JObj members) (Some a) s).2
  = calls s ++ [ {| ob_method := "POST";
                    ob_url := TypedRelay.EXTERNAL_API_BASE_URL +:+ path;
                    ob_headers := TypedRelay.mall_body_headers a;
                    ob_content := None; ob_json := Some (JObj []);
                    ob_params := [] |} ].
Proof. apply forward_net. Qed.

Lemma dto_endpoint_forwards_empty_object upstream ep members a g s :
  ∃ o, calls (TypedRelay.run_dto_endpoint upstream ep (JObj members)
                (Some a) (Some g) s).2 = calls s ++ [o]
    ∧ ob_json o = Some (JObj []).
Proof.
  destruct ep; simpl;
    unfold TypedRelay.auth_token, TypedRelay.update_delivery_ext_order_id,
      TypedRelay.return_delivery_flex, TypedRelay.return_delivery_list_flex,
      TypedRelay.update_delivery_state, TypedRelay.post_number_save,
      TypedRelay.delivery_list_register, TypedRelay.delivery_register,
      TypedRelay.return_delivery, TypedRelay.return_list_register,
      TypedRelay.return_register;
    eexists;
    (split;
     [ lazymatch goal with
       | |- context [TypedRelay.agency_dto] => apply agency_dto_net
       | |- context [TypedRelay.mall_dto] => apply mall_dto_net
       end
     | reflexivity ]).
Qed.

(** C1 fails on the code. A delivery-list registration whose body has a
    [goodsList] member reaches the upstream as the empty object: the
    member is dropped. *)
Theorem delivery_list_register_drops_members :
  ∀ upstream s,
    ∃ o, calls (TypedRelay.delivery_list_register upstream
                  (JObj [("dawnDelivery", JStr "Y"); ("goodsList", JArr [])])
                  (Some "token") s).2 = calls s ++ [o]
      ∧ ob_json o = Some (JObj [])
      ∧ json_get "goodsList"
          (JObj [("dawnDelivery", JStr "Y"); ("goodsList", JArr [])])
        = Some (JArr [])
      ∧ json_get "goodsList" (JObj []) = None.
Proof.
  intros upstream s.
  destruct (dto_endpoint_forwards_empty_object upstream
              TypedRelay.DeliveryListRegister
              [("dawnDelivery", JStr "Y"); ("goodsList", JArr [])]
              "token" "" s) as (o & Hcalls & Hjson).
  exists o. by repeat split.
Qed.

(** The sibling endpoint that reads the body itself forwards it whole. *)
Lemma cancel_delivery_forwards_body upstream json_loads raw body a s :
  json_loads raw = Some body →
  calls (TypedRelay.cancel_delivery upstream json_loads raw (Some a) s).2
  = calls s ++ [ {| ob_method := "POST";
                    ob_url := TypedRelay.EXTERNAL_API_BASE_URL
                              +:+ "/api/mall/cancelDelivery";
                    ob_headers := TypedRelay.mall_body_headers a;
                    ob_content := None; ob_json := Some body;
                    ob_params := [] |} ].
Proof.
  intros Hbody. unfold TypedRelay.cancel_delivery.
  unfold lift at 1. unfold mbind at 1. unfold Net_bind, Eff.bind. simpl.
  run_net. rewrite Hbody. simpl.
  destruct (upstream _) as [rp|e]; simpl; [done|].
  pose proof (typed_handler_state (A:=TypedResponse) e) as Hst.
  match goal with
  | |- context [TypedRelay.handler e ?st] =>
      specialize (Hst st); destruct (TypedRelay.handler e st)
  end.
  simpl in *. by subst.
Qed.

(** ** The transport client *)

Section client.

Variable base_url : string.
Variable upstream : Outbound → res UpstreamResponse.
Variable json_loads : string → option json.
Variable status_message : UpstreamResponse → string.

Local Abbreviation _request :=
  (Client._request base_url upstream json_loads status_message).
Local Abbreviation outbound := (Client.outbound base_url).

(** [_request] issues the call built by [Client.outbound], once. *)
Lemma request_net self method endpoint headers json_kw params s :
  (_request self method endpoint headers json_kw params s).2
  = {| calls := calls s ++ [outbound self method endpoint headers json_kw params];
       open_clients := open_clients s |}.
Proof.
  unfold Client._request. run_net.
  destruct (upstream _) as [rp|e]; simpl.
  - unfold Client.raise_for_status.
    destruct (_ && _); simpl; [|by repeat case_match].
    destruct (_ =? _)%Z; simpl; [done|].
    unfold Client.response_json.
    destruct (json_loads _); simpl; [done|by repeat case_match].
  - by repeat case_match.
Qed.

(** The result of [_request] once the upstream has answered. *)
Lemma request_answered self method endpoint headers json_kw params s response :
  upstream (outbound self method endpoint headers json_kw params) = Ok response →
  (_request self method endpoint headers json_kw params s).1
  = if ((200 <=? rp_status_code response)
        && (rp_status_code response <=? 299))%Z
    then if (rp_status_code response =? 204)%Z then Ok JNull
         else match json_loads (rp_content response) with
              | Some j => Ok j
              | None => Raise (PyExc Py.JSONDecodeError "Expecting value")
              end
    else Raise (HTTPStatusError (status_message response) response).
Proof.
  intros H. unfold Client._request. run_net. rewrite H. simpl.
  unfold Client.raise_for_status.
  destruct (_ && _); simpl; [|by repeat case_match].
  destruct (_ =? _)%Z; simpl; [done|].
  unfold Client.response_json.
  destruct (json_loads _); simpl; [done|by repeat case_match].
Qed.

(** C6, as the code has it. A 204 yields no content; any status of
    400 or more raises a status error that carries the response, and
    so does any status below 200 or from 300 to 399; every other
    status, that is 200 to 299 apart from 204, yields the parsed
    body when the body parses. *)
Theorem request_status_handling
    self method endpoint headers json_kw params s response :
  upstream (outbound self method endpoint headers json_kw params) = Ok response →
  (rp_status_code response = 204%Z →
     (_request self method endpoint headers json_kw params s).1 = Ok JNull)
  ∧ ((400 ≤ rp_status_code response)%Z →
     (_request self method endpoint headers json_kw params s).1
       = Raise (HTTPStatusError (status_message response) response))
  ∧ ((rp_status_code response < 200 ∨ 300 ≤ rp_status_code response < 400)%Z →
     (_request self method endpoint headers json_kw params s).1
       = Raise (HTTPStatusError (status_message response) response))
  ∧ (∀ j, (200 ≤ rp_status_code response ≤ 299)%Z →
       rp_status_code response ≠ 204%Z →
       json_loads (rp_content response) = Some j →
       (_request self method endpoint headers json_kw params s).1 = Ok j).
Proof.
  intros H. rewrite (request_answered _ _ _ _ _ _ _ _ H).
  repeat split.
  - by intros ->.
  - intros Hge. rewrite (proj2 (andb_false_iff _ _)); [done|].
    right. apply Z.leb_gt. lia.
  - intros Hlt. rewrite (proj2 (andb_false_iff _ _)); [done|].
    destruct Hlt as [Hlt|Hlt]; [left; apply Z.leb_gt|right; apply Z.leb_gt];
      lia.
  - intros j [Hlo Hhi] Hne Hj.
    rewrite (proj2 (Z.leb_le _ _) Hlo), (proj2 (Z.leb_le _ _) Hhi). simpl.
    rewrite (proj2 (Z.eqb_neq _ _) Hne). by rewrite Hj.
Qed.


(** The headers of a request: what the caller passes wins; below
    that, the credentials the client was built with. *)
Lemma request_headers_lookup self headers k :
  Client.request_headers self headers !! k
  = match headers ≫= (.!! k) with
    | Some v => Some v
    | None =>
        if decide (k = "agencyId") then
          if Py.truthy_opt (Client.agency_id self)
          then Client.agency_id self else None
        else if decide (k = "Authorization") then
          if Py.truthy_opt (Client.auth_token self)
          then Client.auth_token self else None
        else None
    end.
Proof.
  unfold Client.request_headers.
  set (creds := if Py.truthy_opt (Client.agency_id self) then _ else _).
  assert (creds !! k
          = if decide (k = "agencyId") then
              if Py.truthy_opt (Client.agency_id self)
              then Client.agency_id self else None
            else if decide (k = "Authorization") then
              if Py.truthy_opt (Client.auth_token self)
              then Client.auth_token self else None
            else None) as Hcreds.
  { subst creds.
    destruct (Client.agency_id self) as [[|c a]|],
      (Client.auth_token self) as [[|c' t]|]; simpl;
      repeat case_decide; subst; simplify_map_eq; done. }
  destruct headers as [h|]; simpl; [|by rewrite Hcreds].
  case_bool_decide as Hempty.
  - subst h. by rewrite lookup_empty, Hcreds.
  - rewrite lookup_union, Hcreds.
    destruct (h !! k); simpl; repeat case_match; try done;
      first [ by destruct (Client.agency_id self)
            | by destruct (Client.auth_token self) ].
Qed.

End client.

(** C6 as stated fails on a redirect: a 302 whose body parses is not
    answered with the parsed body, a status error is raised. *)
Lemma request_redirect_not_parsed :
  ¬ (∀ base_url upstream json_loads status_message self method endpoint
       headers json_kw params s response j,
       upstream (Client.outbound base_url self method endpoint headers
                   json_kw params) = Ok response →
       rp_status_code response ≠ 204%Z →
       (rp_status_code response < 400)%Z →
       json_loads (rp_content response) = Some j →
       (Client._request base_url upstream json_loads status_message self
          method endpoint headers json_kw params s).1 = Ok j).
Proof.
  intros H.
  pose (response := {| rp_status_code := 302; rp_content := "{}";
                       rp_headers := {[ "location" := "/elsewhere" ]} |}).
  specialize (H "https://admin.todaypickup.com/api" (λ _, Ok response)
                (λ _, Some (JObj [])) (λ _, "Redirect response")
                {| Client.auth_token := Some "token"; Client.agency_id := None |}
                "GET" "/mall/delivery/INV001" None None [] idle response
                (JObj []) eq_refl).
  rewrite (request_answered _ (λ _, Ok response) _ _ _ _ _ _ _ _ _ _ eq_refl)
    in H.
  simpl in H. by discriminate H.
Qed.

Lemma request_status_handling_witness :
  (Client._request "https://admin.todaypickup.com/api"
     (λ _, Ok {| rp_status_code := 401; rp_content := ""; rp_headers := ∅ |})
     (λ _, None) (λ _, "Client error")
     {| Client.auth_token := Some "invalid_token";
        Client.agency_id := Some "fake_agency_id" |}
     "POST" "/agency/auth" None None [] idle).1
  = Raise (HTTPStatusError "Client error"
             {| rp_status_code := 401; rp_content := ""; rp_headers := ∅ |}).
Proof.
  destruct (request_status_handling "https://admin.todaypickup.com/api"
              (λ _, Ok {| rp_status_code := 401; rp_content := "";
                          rp_headers := ∅ |})
              (λ _, None) (λ _, "Client error")
              {| Client.auth_token := Some "invalid_token";
                 Client.agency_id := Some "fake_agency_id" |}
              "POST" "/agency/auth" None None [] idle
              {| rp_status_code := 401; rp_content := ""; rp_headers := ∅ |}
              eq_refl) as (_ & Hge & _).
  apply Hge. simpl. discriminate.
Defined.


(** ** Credentials on outbound requests *)

(** C7, as the code has it. Every request of the transport client
    carries the headers passed to it; below those, an [Authorization]
    header with the token when the client was built with a token that
    is not empty, and an [agencyId] header with the tenant id when it
    was built with one that is not empty. A mall client built with a
    token that is not empty issues its invoice lookup as one GET whose
    only header is [Authorization], with the token as its value. *)
Theorem request_carries_credentials
    base_url upstream json_loads status_message
    self method endpoint headers json_kw params s :
  (∃ o, calls (Client._request base_url upstream json_loads status_message
                 self method endpoint headers json_kw params s).2
          = calls s ++ [o]
     ∧ (∀ h k v, headers = Some h → h !! k = Some v →
          ob_headers o !! k = Some v)
     ∧ (∀ t, Client.auth_token self = Some t → t ≠ "" →
          headers ≫= (.!! "Authorization") = None →
          ob_headers o !! "Authorization" = Some t)
     ∧ (∀ a, Client.agency_id self = Some a → a ≠ "" →
          headers ≫= (.!! "agencyId") = None →
          ob_headers o !! "agencyId" = Some a))
  ∧ (∀ token invoice_number, token ≠ "" →
       ∃ o, calls ((c ← Client.MallApiClient token;
                    Client.get_delivery_by_invoice base_url upstream json_loads
                      status_message c invoice_number) s).2
              = calls s ++ [o]
         ∧ ob_method o = "GET"
         ∧ ob_url o = base_url +:+ "/mall/delivery/" +:+ invoice_number
         ∧ ob_headers o = {[ "Authorization" := token ]}).
Proof.
  split.
  - exists (Client.outbound base_url self method endpoint headers json_kw params).
    split; [by rewrite request_net|]. simpl. repeat split.
    + intros h k v -> Hk. rewrite request_headers_lookup. simpl. by rewrite Hk.
    + intros t Ht Hne Hh. rewrite request_headers_lookup, Hh, Ht. simpl.
      by apply truthy_true in Hne as ->.
    + intros a Ha Hne Hh. rewrite request_headers_lookup, Hh, Ha. simpl.
      by apply truthy_true in Hne as ->.
  - intros token invoice_number Hne. eexists. split.
    + unfold Client.MallApiClient, Client.init, Client.get_delivery_by_invoice.
      unfold mbind at 1. unfold Net_bind, Eff.bind. simpl.
      rewrite request_net. simpl. reflexivity.
    + simpl. repeat split. unfold Client.request_headers. simpl.
      by apply truthy_true in Hne as ->.
Qed.

(** C7 as stated fails for a client built with the empty string as its
    token: the token was supplied, no [Authorization] header is sent. *)
Lemma request_empty_token_not_sent :
  ¬ (∀ base_url upstream json_loads status_message self method endpoint
       json_kw params s t,
       Client.auth_token self = Some t →
       ∃ o, calls (Client._request base_url upstream json_loads status_message
                     self method endpoint None json_kw params s).2
              = calls s ++ [o]
         ∧ ob_headers o !! "Authorization" = Some t).
Proof.
  intros H.
  destruct (H "https://admin.todaypickup.com/api"
              (λ _, Raise (PyExc Py.ConnectError "refused"))
              (λ _, None) (λ _, "")
              {| Client.auth_token := Some ""; Client.agency_id := None |}
              "GET" "/mall/delivery/INV001" None [] idle "" eq_refl)
    as (o & Hcalls & Hlook).
  rewrite request_net in Hcalls. simpl in Hcalls. injection Hcalls as <-.
  by vm_compute in Hlook.
Qed.

(** ** Credential checks of the typed agency endpoints *)






(** ** The user service *)

(** The digest is a fixed 64 characters, whatever the password. *)
Lemma hexdigest_length (data : string) :
  String.length (SHA256.hexdigest data) = 64.
Proof.
  unfold SHA256.hexdigest. generalize (SHA256.digest (SHA256.bytes_of data)).
  intros r. reflexivity.
Qed.

Example hexdigest_abc :
  SHA256.hexdigest "abc"
  = "ba7816bf8f01cfea414140de5dae2223b00361a396177a9cb410ff61f20015ad".
Proof. by vm_compute. Qed.

(** A password outside ASCII is hashed through its UTF-8 bytes: the
    digest of [é] is that of the two bytes C3 A9. *)
Example hash_password_utf8 :
  Users._hash_password (String (ascii_of_nat 233) EmptyString)
  = "4a99557e4033c3539de2eb65472017cad5f9557f7a0625a09f1c3f6e2ba69c4c".
Proof. by vm_compute. Qed.

Lemma violates_unique_app rows extra u :
  Users.violates_unique rows u = true →
  Users.violates_unique (rows ++ extra) u = true.
Proof.
  unfold Users.violates_unique. rewrite existsb_app. by intros ->.
Qed.

(** A flush fails when one of the pending objects collides with a row
    that is already there. *)
Lemma insert_all_conflict rows next pending u :
  u ∈ pending → Users.violates_unique rows u = true →
  Users.insert_all rows next pending = None.
Proof.
  revert rows next.
  induction pending as [|v rest IH]; intros rows next Hin Hv.
  { by apply elem_of_nil in Hin. }
  simpl. destruct (Users.violates_unique rows v) eqn:Hrows; [done|].
  apply elem_of_cons in Hin as [->|Hin]; [congruence|].
  apply IH; [done|]. by apply violates_unique_app.
Qed.

(** A flush that succeeds appends the row of the object added last at
    the end of the table. *)
Lemma insert_all_last rows next pending u rows' next' :
  Users.insert_all rows next (pending ++ [u]) = Some (rows', next') →
  ∃ before k,
    rows' = before
            ++ [{| Users.id := Some k; Users.email := Users.email u;
                   Users.username := Users.username u;
                   Users.hashed_password := Users.hashed_password u |}].
Proof.
  revert rows next.
  induction pending as [|v rest IH]; intros rows next; simpl.
  - destruct (Users.violates_unique rows u); [done|].
    intros [= <- <-]. by eexists _, _.
  - destruct (Users.violates_unique rows v); [done|]. apply IH.
Qed.

Ltac run_db :=
  unfold Users.create_user, Users.create, Users._hash_password,
    Users.add, Users.commit, Users.rollback, Users.refresh,
    try_except, raise, mbind, Users.DB_bind, Eff.bind, mret, Users.DB_ret,
    Eff.ret;
  simpl.

(** What [create_user] does, by the outcome of the flush. *)
Lemma create_user_run user_data s :
  let user := {| Users.id := None;
                 Users.email := Users.uc_email user_data;
                 Users.username := Users.uc_username user_data;
                 Users.hashed_password :=
                   SHA256.hexdigest
                     (Py.encode (Users.uc_password user_data)) |} in
  match Users.insert_all (Users.table s) (Users.next_id s)
          (Users.new s ++ [user]) with
  | Some (rows, next) =>
      ∃ before k,
        rows = before ++ [{| Users.id := Some k;
                             Users.email := Users.email user;
                             Users.username := Users.username user;
                             Users.hashed_password :=
                               Users.hashed_password user |}]
        ∧ Users.create_user user_data s
          = (Ok {| Users.id := Some k;
                   Users.email := Users.email user;
                   Users.username := Users.username user;
                   Users.hashed_password := Users.hashed_password user |},
             {| Users.table := rows; Users.new := [];
                Users.next_id := next |})
  | None =>
      Users.create_user user_data s
      = (Raise (PyExc Py.ValueError Users.DUPLICATE),
         {| Users.table := Users.table s; Users.new := [];
            Users.next_id := Users.next_id s |})
  end.
Proof.
  intros user.
  destruct (Users.insert_all _ _ _) as [[rows next]|] eqn:Hflush.
  - destruct (insert_all_last _ _ _ _ _ _ Hflush) as (before & k & ->).
    exists before, k. split; [done|].
    run_db. fold user. rewrite Hflush. simpl.
    rewrite rev_app_distr. simpl. by rewrite String.eqb_refl.
  - run_db. fold user. by rewrite Hflush.
Qed.

(** C9. The row written for a new user holds the SHA-256 digest of the
    password, 64 hexadecimal characters, next to the email and the user
    name, and nothing else of the password. A creation that collides
    with a stored email or user name raises a [ValueError], which is
    not a request error and which the controller answers with 400; the
    pending change is rolled back and the table is as it was. *)
Theorem create_user_hashes_and_rolls_back user_data s :
  let user := {| Users.id := None;
                 Users.email := Users.uc_email user_data;
                 Users.username := Users.uc_username user_data;
                 Users.hashed_password :=
                   SHA256.hexdigest
                     (Py.encode (Users.uc_password user_data)) |} in
  String.length
    (SHA256.hexdigest (Py.encode (Users.uc_password user_data))) = 64
  ∧ ((∃ before k,
        (Users.create_user user_data s).1
          = Ok {| Users.id := Some k;
                  Users.email := Users.uc_email user_data;
                  Users.username := Users.uc_username user_data;
                  Users.hashed_password :=
                    SHA256.hexdigest
                      (Py.encode (Users.uc_password user_data)) |}
        ∧ Users.table (Users.create_user user_data s).2
          = before
            ++ [{| Users.id := Some k;
                   Users.email := Users.uc_email user_data;
                   Users.username := Users.uc_username user_data;
                   Users.hashed_password :=
                     SHA256.hexdigest
                      (Py.encode (Users.uc_password user_data)) |}])
     ∨ ((Users.create_user user_data s).1
          = Raise (PyExc Py.ValueError Users.DUPLICATE)
        ∧ Users.table (Users.create_user user_data s).2 = Users.table s
        ∧ Users.new (Users.create_user user_data s).2 = []))
  ∧ (Users.violates_unique (Users.table s) user = true →
       (Users.create_user user_data s).1
         = Raise (PyExc Py.ValueError Users.DUPLICATE)
       ∧ Users.table (Users.create_user user_data s).2 = Users.table s
       ∧ Users.new (Users.create_user user_data s).2 = []
       ∧ isinstance (PyExc Py.ValueError Users.DUPLICATE) Py.RequestError
         = false
       ∧ (Users.controller_create_user user_data s).1
         = Raise (HTTPException 400 Users.DUPLICATE))
  ∧ (Users.new s = [] →
     Users.violates_unique (Users.table s) user = false →
       (Users.create_user user_data s).1
         = Ok {| Users.id := Some (Users.next_id s);
                 Users.email := Users.uc_email user_data;
                 Users.username := Users.uc_username user_data;
                 Users.hashed_password :=
                   SHA256.hexdigest
                     (Py.encode (Users.uc_password user_data)) |}
       ∧ Users.table (Users.create_user user_data s).2
         = Users.table s
           ++ [{| Users.id := Some (Users.next_id s);
                  Users.email := Users.uc_email user_data;
                  Users.username := Users.uc_username user_data;
                  Users.hashed_password :=
                    SHA256.hexdigest
                      (Py.encode (Users.uc_password user_data)) |}]).
Proof.
  intros user. pose proof (create_user_run user_data s) as Hrun.
  simpl in Hrun. fold user in Hrun.
  split; [apply hexdigest_length|]. split; [|split].
  - destruct (Users.insert_all _ _ _) as [[rows next]|].
    + destruct Hrun as (before & k & -> & ->). left. by exists before, k.
    + rewrite Hrun. by right.
  - intros Hdup.
    rewrite (insert_all_conflict _ _ _ user) in Hrun;
      [|apply elem_of_app; right; left|done].
    unfold Users.controller_create_user, try_except.
    rewrite Hrun. by repeat split.
  - intros Hnew Hfree. rewrite Hnew in Hrun. simpl in Hrun.
    rewrite Hfree in Hrun.
    destruct Hrun as (before & k & Heq & ->).
    apply app_inj_tail in Heq as [<- [= <-]]. by split.
Qed.

(** ** The scenarios of the test suite, evaluated *)

(** A GET through the relay with a query string and a client header:
    one outbound GET to the upstream URL, with the client header and
    without [host]. *)
Example relay_get_scenario :
  let request :=
    {| Relay.rq_method := "GET";
       Relay.rq_query := "param1=value1&param2=value2";
       Relay.rq_headers := [("host", "testserver");
                            ("x-client-header", "ClientValue");
                            ("accept", "application/json")];
       Relay.rq_body := "" |} in
  let o := Relay.outbound request "some/path" in
  ob_method o = "GET"
  ∧ ob_url o = "https://admin.todaypickup.com/v2/api-docs/some/path?param1=value1&param2=value2"
  ∧ ob_content o = None
  ∧ ob_headers o !! "x-client-header" = Some "ClientValue"
  ∧ ob_headers o !! "accept" = Some "application/json"
  ∧ ob_headers o !! "host" = None.
Proof. by vm_compute. Qed.

(** The lookup of invoice INV001 by a mall client built with the token
    fake_mall_token. *)
Example mall_invoice_scenario :
  calls ((c ← Client.MallApiClient "fake_mall_token";
          Client.get_delivery_by_invoice "https://admin.todaypickup.com/api"
            (λ _, Ok {| rp_status_code := 200; rp_content := "{}";
                        rp_headers := ∅ |})
            (λ _, Some (JObj [])) (λ _, "") c "INV001") idle).2
  = [ {| ob_method := "GET";
         ob_url := "https://admin.todaypickup.com/api/mall/delivery/INV001";
         ob_headers := {[ "Authorization" := "fake_mall_token" ]};
         ob_content := None; ob_json := None; ob_params := [] |} ].
Proof. by vm_compute. Qed.

(** An exception outside [Exception], such as a cancellation, matches
    none of the relay's [except] clauses and reaches the caller as it
    is. *)
Lemma relay_request_propagates_base_exception
    (upstream : Outbound → res UpstreamResponse) request path s e :
  upstream (Relay.outbound request path) = Raise e →
  isinstance e Py.Exception = false →
  (Relay.relay_request upstream request path s).1 = Raise e.
Proof.
  intros H Hexc. rewrite (relay_request_raise _ _ _ _ _ H).
  unfold Relay.handler, raise.
  destruct (isinstance e Py.TimeoutException) eqn:Ht.
  { apply timeout_is_request_error, request_error_is_exception in Ht.
    congruence. }
  destruct (isinstance e Py.RequestError) eqn:Hr.
  { apply request_error_is_exception in Hr. congruence. }
  by rewrite Hexc.
Qed.

(** * Further properties of the code *)

(** ** [str.split] and the mall dependency *)

Lemma split_go_spacefree (w : string) :
  has_space w = false → Py.split_go w = (w, []).
Proof.
  induction w as [|c w IH]; simpl; [done|].
  intros [Hc Hw]%orb_false_iff. by rewrite (IH Hw), Hc.
Qed.

Lemma split_go_app (w s : string) :
  has_space w = false →
  Py.split_go (w +:+ s) = (w +:+ (Py.split_go s).1, (Py.split_go s).2).
Proof.
  induction w as [|c w IH]; simpl.
  { intros _. change ("" +:+ s) with s. by destruct (Py.split_go s). }
  intros [Hc Hw]%orb_false_iff.
  change (String c w +:+ s) with (String c (w +:+ s)). simpl.
  by rewrite (IH Hw), Hc.
Qed.

Lemma split_go_sep (sep s : string) :
  sep ≠ "" → only_space sep = true →
  Py.split_go (sep +:+ s) = ("", Py.split s).
Proof.
  induction sep as [|c sep IH]; [done|].
  intros _ [Hc Hsep]%andb_true_iff.
  change (String c sep +:+ s) with (String c (sep +:+ s)). simpl.
  rewrite Hc. destruct sep as [|c' sep'].
  - change ("" +:+ s) with s. unfold Py.split. by destruct (Py.split_go s).
  - by rewrite IH.
Qed.

(** Two words with whitespace between them split into the two. *)
Lemma split_two_words (scheme sep token : string) :
  has_space scheme = false → scheme ≠ "" →
  only_space sep = true → sep ≠ "" →
  has_space token = false → token ≠ "" →
  Py.split (scheme +:+ sep +:+ token) = [scheme; token].
Proof.
  intros Hs Hs' Hsep Hsep' Ht Ht'. unfold Py.split.
  rewrite (split_go_app _ _ Hs), (split_go_sep _ _ Hsep' Hsep). simpl.
  rewrite append_empty_r, (proj2 (truthy_true scheme) Hs').
  unfold Py.split. rewrite (split_go_spacefree _ Ht).
  by rewrite (proj2 (truthy_true token) Ht').
Qed.

(** The words [split] returns are not empty and have no whitespace. *)
Lemma split_go_words (s : string) :
  has_space (Py.split_go s).1 = false
  ∧ Forall (λ w, w ≠ "" ∧ has_space w = false) (Py.split_go s).2.
Proof.
  induction s as [|c s [IHw IHws]]; simpl; [by split|].
  destruct (Py.split_go s) as [w ws]. simpl in *.
  destruct (Py.isspace c) eqn:Hc; simpl.
  - split; [done|]. destruct (Py.truthy w) eqn:Hw; [|done].
    apply List.Forall_cons; [|done]. split; [by apply truthy_true|done].
  - by rewrite Hc, IHw.
Qed.

Lemma split_words (s : string) :
  Forall (λ w, w ≠ "" ∧ has_space w = false) (Py.split s).
Proof.
  unfold Py.split. pose proof (split_go_words s) as [Hw Hws].
  destruct (Py.split_go s) as [w ws]. simpl in *.
  destruct (Py.truthy w) eqn:Ht; [|done].
  apply List.Forall_cons; [|done]. split; [by apply truthy_true|done].
Qed.

(** Every rejection of the mall dependency is a 401. *)
Lemma get_mall_auth_token_rejects authorization e :
  Deps.get_mall_auth_token authorization = Raise e →
  ∃ detail, e = HTTPException 401 detail.
Proof.
  unfold Deps.get_mall_auth_token. repeat case_match; try done;
    intros [= <-]; by eexists.
Qed.

Lemma get_mall_auth_token_accepts (scheme sep token : string) :
  has_space scheme = false → Py.lower scheme = "bearer" →
  only_space sep = true → sep ≠ "" →
  has_space token = false → token ≠ "" →
  Deps.get_mall_auth_token (Some (scheme +:+ sep +:+ token)) = Ok token.
Proof.
  intros Hs Hlow Hsep Hsep' Ht Ht'.
  assert (scheme ≠ "") as Hne by (by intros ->).
  unfold Deps.get_mall_auth_token. cbn [default from_option id].
  rewrite (split_two_words _ _ _ Hs Hne Hsep Hsep' Ht Ht'). simpl.
  rewrite bool_decide_true by done. simpl.
  destruct scheme as [|c scheme]; [done|].
  by change (String c scheme +:+ sep +:+ token)
    with (String c (scheme +:+ sep +:+ token)).
Qed.

(** X1. A header that reads "Bearer", in any mix of cases, then
    whitespace, then a token without whitespace is accepted, and the
    token is what the dependency returns. *)
Theorem get_mall_auth_token_bearer (scheme sep token : string) :
  has_space scheme = false → Py.lower scheme = "bearer" →
  only_space sep = true → sep ≠ "" →
  has_space token = false → token ≠ "" →
  Deps.get_mall_auth_token (Some (scheme +:+ sep +:+ token)) = Ok token.
Proof. apply get_mall_auth_token_accepts. Qed.

Lemma get_mall_auth_token_bearer_witness :
  Deps.get_mall_auth_token (Some ("bEARER" +:+ "  " +:+ "tok-1")) = Ok "tok-1".
Proof.
  apply (get_mall_auth_token_bearer "bEARER" "  " "tok-1");
    first [reflexivity | discriminate].
Defined.

Lemma get_mall_auth_token_token authorization token :
  Deps.get_mall_auth_token authorization = Ok token →
  token ≠ "" ∧ has_space token = false.
Proof.
  intros Hres. unfold Deps.get_mall_auth_token in Hres.
  destruct (negb (Py.truthy_opt authorization)); [done|].
  pose proof (split_words (default "" authorization)) as Hwords.
  destruct (Py.split (default "" authorization)) as [|a [|b [|c rest]]];
    simpl in Hres; try done.
  destruct (bool_decide _); simpl in Hres; [|done].
  injection Hres as <-.
  by apply Forall_cons in Hwords as [_ [Hb _]%Forall_cons].
Qed.

(** X2. Whatever the header, the mall dependency either returns a token
    that is not empty and has no whitespace in it, or rejects the
    request with a 401. *)
Theorem get_mall_auth_token_outcome (authorization : option string) :
  match Deps.get_mall_auth_token authorization with
  | Ok token => token ≠ "" ∧ has_space token = false
  | Raise e => ∃ detail, e = HTTPException 401 detail
  end.
Proof.
  destruct (Deps.get_mall_auth_token authorization) as [token|e] eqn:Hres.
  - by apply get_mall_auth_token_token in Hres.
  - by apply get_mall_auth_token_rejects in Hres.
Qed.

(** ** Endpoints built on the client: one guarded request *)

Lemma request_raised base_url upstream json_loads status_message
    self method endpoint headers json_kw params s e :
  upstream (Client.outbound base_url self method endpoint headers json_kw params)
    = Raise e →
  (Client._request base_url upstream json_loads status_message self method
     endpoint headers json_kw params s).1 = Raise e.
Proof.
  intros H. unfold Client._request. run_net. rewrite H. simpl.
  by repeat case_match.
Qed.

(** [try: m  except ...: h  finally: close], by the outcome of [m]. *)
Lemma guarded_run {A} (m : Net A) (h : exn → Net A) (s : net) :
  Eff.finally (try_except m h) Client.close s
  = match (m s).1 with
    | Ok a => (Ok a, aclose (m s).2)
    | Raise e => ((h e (m s).2).1, aclose (h e (m s).2).2)
    end.
Proof.
  unfold Eff.finally, try_except, Client.close.
  destruct (m s) as [[a|e] s']; simpl; [done|]. by destruct (h e s').
Qed.

Lemma controller_handler_run {A} (e : exn) (s : net) :
  Client.handler (A:=A) e s
  = (Raise (if isinstance e Py.HTTPExceptionC then e
            else if isinstance e Py.Exception then
              HTTPException 500 ("An unexpected error occurred: " +:+ str e)
            else e), s).
Proof. unfold Client.handler, raise. by repeat case_match. Qed.

(** A request made by a client that is open, then closed: the log
    gains the call and the client count is back where it was. *)
Lemma guarded_request_net base_url upstream json_loads status_message
    self method endpoint headers json_kw params (h : exn → Net json) s :
  (∀ e s', (h e s').2 = s') →
  (Eff.finally
     (try_except
        (Client._request base_url upstream json_loads status_message self
           method endpoint headers json_kw params) h)
     Client.close (open_client s)).2
  = {| calls := calls s ++ [Client.outbound base_url self method endpoint
                              headers json_kw params];
       open_clients := open_clients s |}.
Proof.
  intros Hh. rewrite guarded_run, request_net.
  destruct (_.1) as [j|e]; simpl; [done|]. by rewrite Hh.
Qed.

Lemma controller_handler_state {A} (e : exn) (s : net) :
  (Client.handler (A:=A) e s).2 = s.
Proof. by rewrite controller_handler_run. Qed.

(** With both credentials given, an agency endpoint is its guarded
    operation on a service built from them. *)
Lemma endpoint_with_credentials op authorization agencyId s :
  Py.truthy_opt authorization = true → Py.truthy_opt agencyId = true →
  Client.endpoint op authorization agencyId s
  = Eff.finally
      (try_except
         (op {| Client.client :=
                  {| Client.auth_token := Some (default "" authorization);
                     Client.agency_id := Some (default "" agencyId) |} |})
         Client.handler)
      Client.close (open_client s).
Proof.
  intros Ha Hg. unfold Client.endpoint, Client.get_agency_service,
    Deps.get_agency_auth_token, Deps.get_agency_id. by rewrite Ha, Hg.
Qed.

(** The three operations are requests. *)
Lemma agency_endpoint_request base_url upstream json_loads status_message ep :
  ∃ method endpoint json_kw,
    Client.run_agency_endpoint base_url upstream json_loads status_message ep
    = Client.endpoint
        (λ service,
           Client._request base_url upstream json_loads status_message
             (Client.client service) method endpoint None json_kw []).
Proof. destruct ep; by eexists _, _, _. Qed.



(** X4. When the outbound call of such an endpoint raises, a timeout
    or a refused connection alike, the caller gets a 500 with the text
    of the exception; the call was issued once and the client is
    closed. *)
Theorem agency_endpoint_transport_error
    base_url upstream json_loads status_message ep authorization agencyId s e :
  Py.truthy_opt authorization = true → Py.truthy_opt agencyId = true →
  (∀ o, upstream o = Raise e) →
  isinstance e Py.RequestError = true →
  (Client.run_agency_endpoint base_url upstream json_loads status_message
     ep authorization agencyId s).1
    = Raise (HTTPException 500 ("An unexpected error occurred: " +:+ str e))
  ∧ length (calls (Client.run_agency_endpoint base_url upstream json_loads
                     status_message ep authorization agencyId s).2)
    = S (length (calls s))
  ∧ open_clients (Client.run_agency_endpoint base_url upstream json_loads
                    status_message ep authorization agencyId s).2
    = open_clients s.
Proof.
  intros Ha Hg Hup He.
  destruct (agency_endpoint_request base_url upstream json_loads
              status_message ep) as (method & endpoint & json_kw & ->).
  rewrite (endpoint_with_credentials _ _ _ _ Ha Hg).
  split; [|split].
  - rewrite guarded_run, (request_raised _ _ _ _ _ _ _ _ _ _ _ _ (Hup _)).
    rewrite controller_handler_run. simpl.
    rewrite (request_error_is_exception _ He).
    destruct e as [| |c]; [done..|]. by destruct c.
  - rewrite guarded_request_net by apply controller_handler_state.
    simpl. rewrite length_app. simpl. lia.
  - by rewrite guarded_request_net by apply controller_handler_state.
Qed.

Lemma agency_endpoint_transport_error_witness :
  (Client.run_agency_endpoint "https://admin.todaypickup.com/api"
     (λ _, Raise (PyExc Py.ConnectTimeout "timed out"))
     (λ _, None) (λ _, "")
     Client.CheckAgencyAuth (Some "token") (Some "agency001") idle).1
  = Raise (HTTPException 500 "An unexpected error occurred: timed out").
Proof.
  apply (agency_endpoint_transport_error "https://admin.todaypickup.com/api"
           (λ _, Raise (PyExc Py.ConnectTimeout "timed out"))
           (λ _, None) (λ _, "")
           Client.CheckAgencyAuth (Some "token") (Some "agency001") idle
           (PyExc Py.ConnectTimeout "timed out")
           eq_refl eq_refl (λ _, eq_refl) eq_refl).
Defined.

(** ** The mall controller *)

Section mall_controller.

Variable base_url : string.
Variable upstream : Outbound → res UpstreamResponse.
Variable json_loads : string → option json.
Variable status_message : UpstreamResponse → string.

Local Abbreviation cancel_delivery :=
  (MallController.cancel_delivery base_url upstream json_loads status_message).
Local Abbreviation get_delivery_by_invoice :=
  (MallController.get_delivery_by_invoice base_url upstream json_loads
     status_message).

Lemma mall_service_accepted authorization token s :
  Deps.get_mall_auth_token authorization = Ok token →
  MallController.get_mall_service authorization s
  = (Ok {| MallClient.client :=
             {| Client.auth_token := Some token; Client.agency_id := None |} |},
     open_client s).
Proof.
  intros H. unfold MallController.get_mall_service. by rewrite H.
Qed.


Lemma get_delivery_by_invoice_accepted invoice_number authorization token s :
  Deps.get_mall_auth_token authorization = Ok token →
  get_delivery_by_invoice invoice_number authorization s
  = Eff.finally
      (try_except
         (response ← Client._request base_url upstream json_loads
                       status_message
                       {| Client.auth_token := Some token;
                          Client.agency_id := None |}
                       "GET" ("/mall/delivery/" +:+ invoice_number)
                       None None [];
          match response with
          | JNull => raise (HTTPException 404 "Delivery not found")
          | _ => mret response
          end)
         Client.handler)
      Client.close (open_client s).
Proof.
  intros H. unfold MallController.get_delivery_by_invoice.
  unfold mbind at 1. unfold Net_bind, Eff.bind.
  by rewrite (mall_service_accepted _ _ _ H).
Qed.





(** X7. The invoice lookup answers 404 "Delivery not found" when the
    upstream has no content for it: a 204, or a 2xx whose body is the
    JSON null. The 404 is raised inside the [try] and survives the
    handler for unexpected errors. *)
Theorem get_delivery_by_invoice_not_found
    invoice_number authorization token s response :
  Deps.get_mall_auth_token authorization = Ok token →
  (∀ o, upstream o = Ok response) →
  rp_status_code response = 204%Z
  ∨ (is_2xx (rp_status_code response)
     ∧ json_loads (rp_content response) = Some JNull) →
  (get_delivery_by_invoice invoice_number authorization s).1
  = Raise (HTTPException 404 "Delivery not found").
Proof.
  intros H Hup Hnone.
  rewrite (get_delivery_by_invoice_accepted _ _ _ _ H), guarded_run.
  unfold mbind, Net_bind, Eff.bind.
  pose proof (request_answered base_url upstream json_loads status_message
                {| Client.auth_token := Some token; Client.agency_id := None |}
                "GET" ("/mall/delivery/" +:+ invoice_number) None None []
                (open_client s) response (Hup _)) as Hans.
  destruct (Client._request _ _ _ _ _ _ _ _ _ _ _) as [r s']. simpl in *.
  assert (r = Ok JNull) as ->.
  { rewrite Hans. destruct Hnone as [-> | [[Hlo Hhi] Hnull]]; [done|].
    rewrite (proj2 (Z.leb_le _ _) Hlo), (proj2 (Z.leb_le _ _) Hhi), Hnull.
    simpl. by destruct (_ =? _)%Z. }
  done.
Qed.

End mall_controller.



Lemma get_delivery_by_invoice_not_found_witness :
  (MallController.get_delivery_by_invoice "https://admin.todaypickup.com/api"
     (λ _, Ok {| rp_status_code := 204; rp_content := ""; rp_headers := ∅ |})
     (λ _, None) (λ _, "")
     "INV001" (Some "Bearer fake_mall_token") idle).1
  = Raise (HTTPException 404 "Delivery not found").
Proof.
  exact (get_delivery_by_invoice_not_found
           "https://admin.todaypickup.com/api"
           (λ _, Ok {| rp_status_code := 204; rp_content := "";
                       rp_headers := ∅ |})
           (λ _, None) (λ _, "")
           "INV001" (Some "Bearer fake_mall_token") "fake_mall_token" idle
           {| rp_status_code := 204; rp_content := ""; rp_headers := ∅ |}
           eq_refl (λ _, eq_refl) (or_introl eq_refl)).
Defined.

(** ** The shipping service *)

Lemma error_dict_run details (e : exn) (s : net) :
  Shipping.error_dict details e s
  = (if isinstance e Py.Exception
     then Ok (JObj [("error", JStr (str e)); ("details", JStr details)])
     else Raise e, s).
Proof. unfold Shipping.error_dict, raise. by destruct (isinstance _ _). Qed.

(** A request guarded by [error_dict]: its network and its result. *)
Lemma shielded_request base_url upstream json_loads status_message
    self method endpoint details s :
  let r := Eff.finally
             (try_except
                (Client._request base_url upstream json_loads status_message
                   self method endpoint None None [])
                (Shipping.error_dict details))
             Client.close (open_client s) in
  r.2 = {| calls := calls s ++ [Client.outbound base_url self method endpoint
                                  None None []];
           open_clients := open_clients s |}
  ∧ match r.1 with
    | Ok _ => True
    | Raise e => isinstance e Py.Exception = false
    end
  ∧ (∀ e, upstream (Client.outbound base_url self method endpoint None None [])
            = Raise e →
          isinstance e Py.Exception = true →
          r.1 = Ok (JObj [("error", JStr (str e)); ("details", JStr details)]))
  ∧ (∀ response,
       upstream (Client.outbound base_url self method endpoint None None [])
         = Ok response →
       ¬ is_2xx (rp_status_code response) →
       r.1 = Ok (JObj [("error", JStr (status_message response));
                       ("details", JStr details)])).
Proof.
  intros r. subst r. split; [|split; [|split]].
  - apply guarded_request_net. intros e s'. by rewrite error_dict_run.
  - rewrite guarded_run.
    destruct (fst (Client._request _ _ _ _ _ _ _ _ _ _ _)) as [j|e];
      cbn [fst snd]; [done|].
    rewrite error_dict_run. cbn [fst snd].
    by destruct (isinstance e Py.Exception) eqn:He.
  - intros e Hup He. rewrite guarded_run, (request_raised _ _ _ _ _ _ _ _ _ _ _ _ Hup).
    by rewrite error_dict_run, He.
  - intros response Hup Hnot.
    rewrite guarded_run, (request_answered _ _ _ _ _ _ _ _ _ _ _ _ Hup).
    destruct (_ && _) eqn:Hrange.
    { destruct Hnot. apply andb_true_iff in Hrange as [Hlo Hhi].
      split; by apply Z.leb_le. }
    by rewrite error_dict_run.
Qed.

Lemma get_shipment_status_run base_url upstream json_loads status_message
    invoice_number mall_auth_token s :
  Shipping.get_shipment_status base_url upstream json_loads status_message
    invoice_number mall_auth_token s
  = Eff.finally
      (try_except
         (Client._request base_url upstream json_loads status_message
            {| Client.auth_token := Some mall_auth_token;
               Client.agency_id := None |}
            "GET" ("/mall/delivery/" +:+ invoice_number) None None [])
         (Shipping.error_dict "Failed to retrieve shipment status."))
      Client.close (open_client s).
Proof. reflexivity. Qed.

Lemma check_agency_auth_status_run base_url upstream json_loads status_message
    agency_auth_token agency_id s :
  Shipping.check_agency_auth_status base_url upstream json_loads
    status_message agency_auth_token agency_id s
  = Eff.finally
      (try_except
         (Client._request base_url upstream json_loads status_message
            {| Client.auth_token := Some agency_auth_token;
               Client.agency_id := Some agency_id |}
            "POST" "/agency/auth" None None [])
         (Shipping.error_dict "Failed to check agency authentication status."))
      Client.close (open_client s).
Proof. reflexivity. Qed.

(** X8. [get_shipment_status] and [check_agency_auth_status] never
    raise an [Exception]: a failed call, a timeout or an error status
    alike, comes back as a dictionary with the text of the error. Each
    issues one outbound call and closes its client on every path. *)
Theorem shipping_service_shields_errors
    base_url upstream json_loads status_message
    invoice_number mall_auth_token agency_auth_token agency_id s :
  (length (calls (Shipping.get_shipment_status base_url upstream json_loads
                    status_message invoice_number mall_auth_token s).2)
     = S (length (calls s))
   ∧ open_clients (Shipping.get_shipment_status base_url upstream json_loads
                     status_message invoice_number mall_auth_token s).2
     = open_clients s
   ∧ match (Shipping.get_shipment_status base_url upstream json_loads
              status_message invoice_number mall_auth_token s).1 with
     | Ok _ => True
     | Raise e => isinstance e Py.Exception = false
     end
   ∧ (∀ e, (∀ o, upstream o = Raise e) → isinstance e Py.Exception = true →
        (Shipping.get_shipment_status base_url upstream json_loads
           status_message invoice_number mall_auth_token s).1
        = Ok (JObj [("error", JStr (str e));
                    ("details",
                     JStr "Failed to retrieve shipment status.")]))
   ∧ (∀ response, (∀ o, upstream o = Ok response) →
        ¬ is_2xx (rp_status_code response) →
        (Shipping.get_shipment_status base_url upstream json_loads
           status_message invoice_number mall_auth_token s).1
        = Ok (JObj [("error", JStr (status_message response));
                    ("details",
                     JStr "Failed to retrieve shipment status.")])))
  ∧ (length (calls (Shipping.check_agency_auth_status base_url upstream
                      json_loads status_message agency_auth_token agency_id
                      s).2)
       = S (length (calls s))
     ∧ open_clients (Shipping.check_agency_auth_status base_url upstream
                       json_loads status_message agency_auth_token agency_id
                       s).2
       = open_clients s
     ∧ match (Shipping.check_agency_auth_status base_url upstream json_loads
                status_message agency_auth_token agency_id s).1 with
       | Ok _ => True
       | Raise e => isinstance e Py.Exception = false
       end).
Proof.
  rewrite !get_shipment_status_run, !check_agency_auth_status_run. split.
  - destruct (shielded_request base_url upstream json_loads status_message
                {| Client.auth_token := Some mall_auth_token;
                   Client.agency_id := None |}
                "GET" ("/mall/delivery/" +:+ invoice_number)
                "Failed to retrieve shipment status." s)
      as (Hnet & Hres & Hraise & Hstatus).
    rewrite Hnet. simpl. rewrite length_app. simpl.
    split; [lia|]. split; [done|]. split; [done|]. split.
    + intros e Hup He. by apply Hraise.
    + intros response Hup Hnot. by apply Hstatus.
  - destruct (shielded_request base_url upstream json_loads status_message
                {| Client.auth_token := Some agency_auth_token;
                   Client.agency_id := Some agency_id |}
                "POST" "/agency/auth"
                "Failed to check agency authentication status." s)
      as (Hnet & Hres & _).
    rewrite Hnet. simpl. rewrite length_app. simpl.
    split; [lia|]. by split.
Qed.

(** ** The TodayPickup proxy *)

Section proxy.

Variable upstream : Outbound → res UpstreamResponse.
Variable json_loads : string → option json.

Lemma proxy_request_run method path params data headers s :
  Proxy.request upstream method path params data headers s
  = (upstream {| ob_method := method; ob_url := Proxy.BASE_URL +:+ path;
                 ob_headers := default ∅ headers; ob_content := None;
                 ob_json := data; ob_params := default [] params |},
     {| calls := calls s
                 ++ [ {| ob_method := method;
                         ob_url := Proxy.BASE_URL +:+ path;
                         ob_headers := default ∅ headers; ob_content := None;
                         ob_json := data; ob_params := default [] params |} ];
        open_clients := open_clients s |}).
Proof. unfold Proxy.request. run_net. by destruct (upstream _). Qed.

(** X9. The proxy routes hand an upstream status outside 2xx on to the
    caller, as an [HTTPException] with that status and the body's text;
    a 2xx answer gives the parsed body. Either way one call to
    [BASE_URL/<path>] is issued and the client is closed. *)
Theorem proxy_forwards_upstream_status full_path params data s response :
  (∀ o, upstream o = Ok response) →
  (¬ is_2xx (rp_status_code response) →
     (Proxy.proxy_get upstream json_loads full_path params s).1
       = Raise (HTTPException (rp_status_code response) (rp_content response))
     ∧ (Proxy.proxy_post upstream json_loads full_path data s).1
       = Raise (HTTPException (rp_status_code response) (rp_content response)))
  ∧ (∀ j, is_2xx (rp_status_code response) →
       json_loads (rp_content response) = Some j →
       (Proxy.proxy_get upstream json_loads full_path params s).1 = Ok j
       ∧ (Proxy.proxy_post upstream json_loads full_path data s).1 = Ok j)
  ∧ (∃ o, (Proxy.proxy_get upstream json_loads full_path params s).2
          = {| calls := calls s ++ [o]; open_clients := open_clients s |}
        ∧ ob_method o = "GET"
        ∧ ob_url o = Proxy.BASE_URL +:+ "/" +:+ full_path
        ∧ ob_params o = default [] params)
  ∧ (∃ o, (Proxy.proxy_post upstream json_loads full_path data s).2
          = {| calls := calls s ++ [o]; open_clients := open_clients s |}
        ∧ ob_method o = "POST"
        ∧ ob_url o = Proxy.BASE_URL +:+ "/" +:+ full_path
        ∧ ob_json o = data).
Proof.
  intros Hup.
  assert (∀ method path ps d,
            Proxy.request upstream method path ps d None s
            = (Ok response,
               {| calls := calls s
                     ++ [ {| ob_method := method;
                             ob_url := Proxy.BASE_URL +:+ path;
                             ob_headers := ∅; ob_content := None;
                             ob_json := d; ob_params := default [] ps |} ];
                  open_clients := open_clients s |})) as Hreq.
  { intros. by rewrite proxy_request_run, Hup. }
  unfold Proxy.proxy_get, Proxy.proxy_post, mbind, Net_bind, Eff.bind.
  rewrite !Hreq. unfold Proxy.answer, Proxy.is_success, is_2xx.
  split; [|split; [|split]].
  - intros Hnot. destruct (_ && _) eqn:Hrange; [|done].
    destruct Hnot. apply andb_true_iff in Hrange as [Hlo Hhi].
    split; by apply Z.leb_le.
  - intros j [Hlo Hhi] Hj.
    by rewrite (proj2 (Z.leb_le _ _) Hlo), (proj2 (Z.leb_le _ _) Hhi), Hj.
  - eexists.
    split; [destruct (_ && _); [destruct (json_loads _)|]; reflexivity|done].
  - eexists.
    split; [destruct (_ && _); [destruct (json_loads _)|]; reflexivity|done].
Qed.

(** X10. The proxy catches nothing: an exception of the outbound call
    reaches the caller as it is, after one call, with the client
    closed. *)
Theorem proxy_propagates_exception full_path params data s e :
  (∀ o, upstream o = Raise e) →
  (Proxy.proxy_get upstream json_loads full_path params s).1 = Raise e
  ∧ (Proxy.proxy_post upstream json_loads full_path data s).1 = Raise e
  ∧ length (calls (Proxy.proxy_get upstream json_loads full_path params s).2)
    = S (length (calls s))
  ∧ open_clients (Proxy.proxy_get upstream json_loads full_path params s).2
    = open_clients s
  ∧ length (calls (Proxy.proxy_post upstream json_loads full_path data s).2)
    = S (length (calls s))
  ∧ open_clients (Proxy.proxy_post upstream json_loads full_path data s).2
    = open_clients s.
Proof.
  intros Hup.
  unfold Proxy.proxy_get, Proxy.proxy_post, mbind, Net_bind, Eff.bind.
  rewrite !proxy_request_run, !Hup. simpl. rewrite !length_app. simpl.
  repeat split; lia.
Qed.

End proxy.

Lemma proxy_forwards_upstream_status_witness :
  (Proxy.proxy_get
     (λ _, Ok {| rp_status_code := 404; rp_content := "not found";
                 rp_headers := ∅ |})
     (λ _, None) "mall/delivery/INV_ERROR" None idle).1
  = Raise (HTTPException 404 "not found").
Proof.
  destruct (proxy_forwards_upstream_status
              (λ _, Ok {| rp_status_code := 404; rp_content := "not found";
                          rp_headers := ∅ |})
              (λ _, None) "mall/delivery/INV_ERROR" None None idle
              {| rp_status_code := 404; rp_content := "not found";
                 rp_headers := ∅ |}
              (λ _, eq_refl)) as (H & _).
  apply H. unfold is_2xx. simpl. intros [_ Hhi]. by apply Hhi.
Defined.

Lemma proxy_propagates_exception_witness :
  (Proxy.proxy_get (λ _, Raise (PyExc Py.ConnectError "refused"))
     (λ _, None) "mall/delivery/INV001" None idle).1
  = Raise (PyExc Py.ConnectError "refused").
Proof.
  exact (proj1 (proxy_propagates_exception
                  (λ _, Raise (PyExc Py.ConnectError "refused"))
                  (λ _, None) "mall/delivery/INV001" None None idle
                  (PyExc Py.ConnectError "refused") (λ _, eq_refl))).
Defined.

(** ** More on the relay controllers *)

Lemma typed_handler_run {A} (e : exn) (s : net) :
  TypedRelay.handler (A:=A) e s
  = (Raise (if isinstance e Py.RequestError then
              HTTPException 500
                ("Error connecting to external API: " +:+ str e)
            else if isinstance e Py.Exception then
              HTTPException 500 ("An unexpected error occurred: " +:+ str e)
            else e), s).
Proof. unfold TypedRelay.handler, raise. by repeat case_match. Qed.

Lemma forward_run upstream method path headers body params s :
  TypedRelay.forward upstream method path headers body params s
  = (match upstream {| ob_method := method;
                       ob_url := TypedRelay.EXTERNAL_API_BASE_URL +:+ path;
                       ob_headers := headers; ob_content := None;
                       ob_json := body; ob_params := params |} with
     | Ok response => Ok (TypedRelay.relay_response response)
     | Raise e => (TypedRelay.handler (A:=TypedResponse) e s).1
     end,
     {| calls := calls s
                 ++ [ {| ob_method := method;
                         ob_url := TypedRelay.EXTERNAL_API_BASE_URL +:+ path;
                         ob_headers := headers; ob_content := None;
                         ob_json := body; ob_params := params |} ];
        open_clients := open_clients s |}).
Proof.
  unfold TypedRelay.forward. run_net.
  destruct (upstream _) as [rp|e]; simpl; [done|].
  by rewrite !typed_handler_run.
Qed.

(** The lookup of a header under a lower-case name, in a dictionary
    whose names are lower-case. *)
Lemma headers_get_lower (key : string) (m : gmap string string) :
  Py.lower key = key →
  (∀ k, is_Some (m !! k) → Py.lower k = k) →
  headers_get key m = m !! key.
Proof.
  intros Hkey Hlow. unfold headers_get.
  destruct (List.find _ (map_to_list m)) as [[k v]|] eqn:Hfind; simpl.
  - apply find_some in Hfind as [Hin Heq].
    apply list_elem_of_In, elem_of_map_to_list in Hin.
    apply bool_decide_eq_true in Heq. simpl in Heq.
    rewrite (Hlow k), Hkey in Heq by eauto. by subst.
  - destruct (m !! key) as [v|] eqn:Hm; [|done].
    apply elem_of_map_to_list, list_elem_of_In in Hm.
    apply (find_none _ _ Hfind) in Hm. simpl in Hm.
    by rewrite bool_decide_true in Hm.
Qed.

(** X11. Once its parameters are bound, an endpoint of the two relay
    controllers hands the upstream's answer back whatever its status, a
    404 or a 500 as much as a 200: the same status, the same body, and
    the content type the upstream declared. *)
Theorem typed_relay_passes_answer
    upstream method path headers body params s response :
  upstream {| ob_method := method;
              ob_url := TypedRelay.EXTERNAL_API_BASE_URL +:+ path;
              ob_headers := headers; ob_content := None;
              ob_json := body; ob_params := params |} = Ok response →
  (∀ k, is_Some (rp_headers response !! k) → Py.lower k = k) →
  (TypedRelay.forward upstream method path headers body params s).1
  = Ok {| t_content := rp_content response;
          t_status_code := rp_status_code response;
          t_media_type := rp_headers response !! "content-type" |}.
Proof.
  intros Hup Hlow. rewrite forward_run, Hup. simpl.
  unfold TypedRelay.relay_response. by rewrite headers_get_lower.
Qed.

Lemma typed_relay_passes_answer_witness :
  (TypedRelay.forward
     (λ _, Ok {| rp_status_code := 404; rp_content := "{}";
                 rp_headers := {[ "content-type" := "application/json" ]} |})
     "GET" "/api/mall/delivery/INV_ERROR"
     (TypedRelay.mall_get_headers "Bearer testtoken") None [] idle).1
  = Ok {| t_content := "{}"; t_status_code := 404;
          t_media_type :=
            ({[ "content-type" := "application/json" ]}
               : gmap string string) !! "content-type" |}.
Proof.
  refine (typed_relay_passes_answer
            (λ _, Ok {| rp_status_code := 404; rp_content := "{}";
                        rp_headers :=
                          {[ "content-type" := "application/json" ]} |})
            "GET" "/api/mall/delivery/INV_ERROR"
            (TypedRelay.mall_get_headers "Bearer testtoken") None [] idle
            {| rp_status_code := 404; rp_content := "{}";
               rp_headers := {[ "content-type" := "application/json" ]} |}
            eq_refl _).
  intros k [v Hk]. simpl in Hk.
  apply lookup_singleton_Some in Hk as [<- _]. reflexivity.
Defined.

(** X12. When the outbound call of such an endpoint raises, the caller
    gets a 500 in every case, "Error connecting to external API" for a
    request error, timeouts included, and "An unexpected error
    occurred" for any other exception; the call was issued once and the
    client is closed. *)
Theorem typed_relay_failure_is_500
    upstream method path headers body params s e :
  upstream {| ob_method := method;
              ob_url := TypedRelay.EXTERNAL_API_BASE_URL +:+ path;
              ob_headers := headers; ob_content := None;
              ob_json := body; ob_params := params |} = Raise e →
  isinstance e Py.Exception = true →
  (∃ detail,
     (TypedRelay.forward upstream method path headers body params s).1
       = Raise (HTTPException 500 detail)
     ∧ detail
       = (if isinstance e Py.RequestError
          then "Error connecting to external API: "
          else "An unexpected error occurred: ") +:+ str e)
  ∧ length (calls (TypedRelay.forward upstream method path headers body
                     params s).2) = S (length (calls s))
  ∧ open_clients (TypedRelay.forward upstream method path headers body
                    params s).2 = open_clients s.
Proof.
  intros Hup He. rewrite forward_run, Hup, typed_handler_run, He. simpl.
  rewrite length_app. simpl. split; [|split; [lia|done]].
  eexists. split; [|reflexivity]. by destruct (isinstance e Py.RequestError).
Qed.

Lemma typed_relay_failure_is_500_witness :
  ∃ detail,
    (TypedRelay.forward (λ _, Raise (PyExc Py.ReadTimeout "timed out"))
       "POST" "/api/mall/cancelDelivery"
       (TypedRelay.mall_body_headers "Bearer testtoken")
       (Some (JObj [])) [] idle).1 = Raise (HTTPException 500 detail)
    ∧ detail = "Error connecting to external API: " +:+ "timed out".
Proof.
  exact (proj1 (typed_relay_failure_is_500
                  (λ _, Raise (PyExc Py.ReadTimeout "timed out"))
                  "POST" "/api/mall/cancelDelivery"
                  (TypedRelay.mall_body_headers "Bearer testtoken")
                  (Some (JObj [])) [] idle
                  (PyExc Py.ReadTimeout "timed out") eq_refl eq_refl)).
Defined.

(** X13. [cancel_delivery] with a body that is not JSON answers 500
    without issuing an outbound call: the body is read inside the
    [try], so the failure lands in the handler for unexpected errors,
    and the client opened for the call is closed. *)
Theorem cancel_delivery_invalid_body upstream json_loads raw a s :
  json_loads raw = None →
  ∃ message,
    TypedRelay.cancel_delivery upstream json_loads raw (Some a) s
    = (Raise (HTTPException 500
                ("An unexpected error occurred: " +:+ message)), s).
Proof.
  intros Hbody. eexists. unfold TypedRelay.cancel_delivery.
  unfold lift at 1. unfold mbind at 1. unfold Net_bind, Eff.bind. simpl.
  run_net. rewrite Hbody. simpl. by destruct s.
Qed.

Lemma cancel_delivery_invalid_body_witness :
  ∃ message,
    TypedRelay.cancel_delivery (λ _, Raise (PyExc Py.ConnectError "refused"))
      (λ _, None) "not json" (Some "Bearer testtoken") idle
    = (Raise (HTTPException 500
                ("An unexpected error occurred: " +:+ message)), idle).
Proof.
  exact (cancel_delivery_invalid_body
           (λ _, Raise (PyExc Py.ConnectError "refused"))
           (λ _, None) "not json" "Bearer testtoken" idle eq_refl).
Defined.

(** X14. An endpoint with a body model answers 422 to a body that is
    not a JSON object, an array or a string for instance, whatever the
    headers: no client is opened and no outbound call is issued. *)
Theorem dto_endpoint_rejects_non_object
    upstream ep body authorization agencyId s :
  (∀ members, body ≠ JObj members) →
  TypedRelay.local_status
    (TypedRelay.run_dto_endpoint upstream ep body authorization agencyId s).1
    = 422%Z
  ∧ (TypedRelay.run_dto_endpoint upstream ep body authorization agencyId s).2
    = s.
Proof.
  intros Hbody.
  assert (∃ msg, Pydantic.model_validate body
                 = Raise (PyExc Py.RequestValidationError msg)) as [msg Hv].
  { destruct body; try by eexists. by destruct (Hbody members). }
  destruct ep; simpl;
    unfold TypedRelay.auth_token, TypedRelay.update_delivery_ext_order_id,
      TypedRelay.return_delivery_flex, TypedRelay.return_delivery_list_flex,
      TypedRelay.update_delivery_state, TypedRelay.post_number_save,
      TypedRelay.delivery_list_register, TypedRelay.delivery_register,
      TypedRelay.return_delivery, TypedRelay.return_list_register,
      TypedRelay.return_register, TypedRelay.agency_dto, TypedRelay.mall_dto,
      lift, mbind, Net_bind, Eff.bind;
    rewrite Hv; destruct authorization, agencyId; by simpl.
Qed.

Lemma dto_endpoint_rejects_non_object_witness :
  TypedRelay.local_status
    (TypedRelay.run_dto_endpoint (λ _, Raise (PyExc Py.ConnectError "refused"))
       TypedRelay.ReturnDelivery (JArr []) (Some "token") None idle).1
    = 422%Z
  ∧ (TypedRelay.run_dto_endpoint (λ _, Raise (PyExc Py.ConnectError "refused"))
       TypedRelay.ReturnDelivery (JArr []) (Some "token") None idle).2
    = idle.
Proof.
  apply (dto_endpoint_rejects_non_object
           (λ _, Raise (PyExc Py.ConnectError "refused"))
           TypedRelay.ReturnDelivery (JArr []) (Some "token") None idle).
  intros members. discriminate.
Defined.

(** X15. The query of the relay's [possible_delivery]: the address
    always, the postal code and the dawn-delivery flag only when they
    are given and not empty, and nothing else. *)
Theorem possible_delivery_query upstream a address postalCode dawnDelivery s :
  ∃ o, calls (TypedRelay.possible_delivery upstream (Some a) (Some address)
                postalCode dawnDelivery s).2 = calls s ++ [o]
    ∧ ob_method o = "GET"
    ∧ ob_params o
      = [("address", address)]
        ++ (if decide (postalCode = None ∨ postalCode = Some "") then []
            else [("postalCode", default "" postalCode)])
        ++ (if decide (dawnDelivery = None ∨ dawnDelivery = Some "") then []
            else [("dawnDelivery", default "" dawnDelivery)]).
Proof.
  eexists. split.
  - unfold TypedRelay.possible_delivery, lift, mbind, Net_bind, Eff.bind.
    simpl. by rewrite forward_run.
  - split; [done|]. simpl.
    destruct postalCode as [[|c p]|], dawnDelivery as [[|c' d]|]; simpl;
      repeat case_decide; try done; naive_solver.
Qed.

(** ** More on the generic relay and the transport client *)

(** X16. The relay closes the client it opens on every path: whether
    the upstream answers, times out or fails in any other way, as many
    clients are open after the request as before it. *)
Theorem relay_request_closes_client
    (upstream : Outbound → res UpstreamResponse) request path s :
  open_clients (Relay.relay_request upstream request path s).2
  = open_clients s.
Proof. apply relay_request_net. Qed.

(** X17. [_request] adds no header of its own beyond the two
    credentials: every header of the outbound call is [Authorization],
    [agencyId] or one the caller passed. *)
Theorem request_adds_only_credentials
    base_url upstream json_loads status_message
    self method endpoint headers json_kw params s :
  ∃ o, calls (Client._request base_url upstream json_loads status_message
                self method endpoint headers json_kw params s).2
         = calls s ++ [o]
    ∧ ∀ k, is_Some (ob_headers o !! k) →
        k = "Authorization" ∨ k = "agencyId"
        ∨ is_Some (headers ≫= (.!! k)).
Proof.
  exists (Client.outbound base_url self method endpoint headers json_kw params).
  split; [by rewrite request_net|].
  intros k. simpl. rewrite request_headers_lookup.
  destruct (headers ≫= _) as [v|]; [by eauto|].
  repeat case_decide; subst; by eauto.
Qed.

(** X18. [_request] wraps nothing and retries nothing: an exception of
    the outbound call reaches the caller as it is, after exactly one
    call. *)
Theorem request_propagates_exception
    base_url upstream json_loads status_message
    self method endpoint headers json_kw params s e :
  upstream (Client.outbound base_url self method endpoint headers json_kw params)
    = Raise e →
  (Client._request base_url upstream json_loads status_message self method
     endpoint headers json_kw params s).1 = Raise e
  ∧ calls (Client._request base_url upstream json_loads status_message self
             method endpoint headers json_kw params s).2
    = calls s ++ [Client.outbound base_url self method endpoint headers
                    json_kw params].
Proof.
  intros H. split; [by apply request_raised|by rewrite request_net].
Qed.

Lemma request_propagates_exception_witness :
  (Client._request "https://admin.todaypickup.com/api"
     (λ _, Raise (PyExc Py.ConnectTimeout "timed out")) (λ _, None) (λ _, "")
     {| Client.auth_token := Some "token"; Client.agency_id := None |}
     "GET" "/mall/delivery/INV001" None None [] idle).1
  = Raise (PyExc Py.ConnectTimeout "timed out").
Proof.
  exact (proj1 (request_propagates_exception
                  "https://admin.todaypickup.com/api"
                  (λ _, Raise (PyExc Py.ConnectTimeout "timed out"))
                  (λ _, None) (λ _, "")
                  {| Client.auth_token := Some "token";
                     Client.agency_id := None |}
                  "GET" "/mall/delivery/INV001" None None [] idle
                  (PyExc Py.ConnectTimeout "timed out") eq_refl)).
Defined.

(** X19. The query of the client's [possible_delivery]: address and
    postal code always, in that order, the postal code even when it is
    empty; the dawn-delivery flag as the lower-case word true or false,
    and not at all when it is [None]. *)
Theorem client_possible_delivery_query
    base_url upstream json_loads status_message
    self address postal_code dawn_delivery s :
  ∃ o, calls (MallClient.possible_delivery base_url upstream json_loads
                status_message self address postal_code dawn_delivery s).2
         = calls s ++ [o]
    ∧ ob_method o = "GET"
    ∧ ob_url o = base_url +:+ "/mall/possibleDelivery"
    ∧ ob_params o
      = [("address", address); ("postalCode", postal_code)]
        ++ match dawn_delivery with
           | Some true => [("dawnDelivery", "true")]
           | Some false => [("dawnDelivery", "false")]
           | None => []
           end.
Proof.
  eexists. split.
  - unfold MallClient.possible_delivery. by rewrite request_net.
  - simpl. repeat split. by destruct dawn_delivery as [[|]|].
Qed.

(** ** More on the user service *)

Local Open Scope Z_scope.

Ltac run_users :=
  unfold Users.controller_get_user, Users.controller_update_user,
    Users.controller_delete_user, Users.get_user, Users.update_user,
    Users.delete_user, Users.update, Users.delete,
    Users.get_by_id, Users.commit_changed,
    Users.commit_deleted, Users.or_404,
    raise, mbind, Users.DB_bind, Eff.bind, mret, Users.DB_ret, Eff.ret;
  simpl.

(** X21. For an identifier no row has, the lookup returns [None], the
    update returns [None] and the deletion returns [False], each
    leaving the session as it was; the three routes answer 404. *)
Theorem missing_user_is_404 user_id user_data s :
  List.find (Users.has_id user_id) (Users.table s) = None →
  Users.get_user user_id s = (Ok None, s)
  ∧ Users.update_user user_id user_data s = (Ok None, s)
  ∧ Users.delete_user user_id s = (Ok false, s)
  ∧ Users.controller_get_user user_id s
    = (Raise (HTTPException 404 Users.NOT_FOUND), s)
  ∧ Users.controller_update_user user_id user_data s
    = (Raise (HTTPException 404 Users.NOT_FOUND), s)
  ∧ Users.controller_delete_user user_id s
    = (Raise (HTTPException 404 Users.NOT_FOUND), s).
Proof. intros H. run_users. by rewrite H. Qed.

Lemma missing_user_is_404_witness :
  Users.controller_get_user 7
    {| Users.table := []; Users.new := []; Users.next_id := 1 |}
  = (Raise (HTTPException 404 Users.NOT_FOUND),
     {| Users.table := []; Users.new := []; Users.next_id := 1 |}).
Proof.
  destruct (missing_user_is_404 7
              {| Users.uu_email := None; Users.uu_username := None;
                 Users.uu_password := None |}
              {| Users.table := []; Users.new := []; Users.next_id := 1 |}
              eq_refl) as (_ & _ & _ & H & _).
  exact H.
Defined.

(** Lookups in a table after rows were replaced or removed. *)
Lemma find_replaced user_id (u u' : Users.User) rows :
  Users.id u' = Some user_id →
  List.find (Users.has_id user_id) rows = Some u →
  List.find (Users.has_id user_id)
    (map (λ r, if Users.has_id user_id r then u' else r) rows) = Some u'.
Proof.
  intros Hid. induction rows as [|r rows IH]; simpl; [done|].
  destruct (Users.has_id user_id r) eqn:Hr; simpl.
  - intros _. unfold Users.has_id. by rewrite bool_decide_true.
  - by rewrite Hr.
Qed.

Lemma find_other_replaced user_id other (u' : Users.User) rows :
  Users.id u' = Some user_id → other ≠ user_id →
  List.find (Users.has_id other)
    (map (λ r, if Users.has_id user_id r then u' else r) rows)
  = (λ r, if Users.has_id user_id r then u' else r)
    <$> List.find (Users.has_id other) rows.
Proof.
  intros Hid Hne. induction rows as [|r rows IH]; simpl; [done|].
  destruct (Users.has_id user_id r) eqn:Hr; simpl.
  - apply bool_decide_eq_true in Hr.
    assert (Users.has_id other u' = false) as ->
      by (apply bool_decide_eq_false; congruence).
    assert (Users.has_id other r = false) as ->
      by (apply bool_decide_eq_false; congruence).
    done.
  - destruct (Users.has_id other r); simpl; [by rewrite Hr|done].
Qed.

Lemma find_removed user_id rows :
  List.find (Users.has_id user_id)
    (List.filter (λ r, negb (Users.has_id user_id r)) rows) = None.
Proof.
  induction rows as [|r rows IH]; simpl; [done|].
  destruct (Users.has_id user_id r) eqn:Hr; simpl; [done|]. by rewrite Hr.
Qed.

Lemma find_other_removed user_id other rows :
  other ≠ user_id →
  List.find (Users.has_id other)
    (List.filter (λ r, negb (Users.has_id user_id r)) rows)
  = List.find (Users.has_id other) rows.
Proof.
  intros Hne. induction rows as [|r rows IH]; simpl; [done|].
  destruct (Users.has_id user_id r) eqn:Hr; simpl.
  - apply bool_decide_eq_true in Hr.
    assert (Users.has_id other r = false) as ->
      by (apply bool_decide_eq_false; congruence).
    done.
  - by rewrite IH.
Qed.

(** X22. Deleting a user that exists returns [True] and the route
    answers without error; afterwards the lookup of that identifier
    finds nothing, and the lookup of any other identifier finds what it
    found before. *)
Theorem delete_user_removes_the_row user_id s u :
  List.find (Users.has_id user_id) (Users.table s) = Some u →
  (Users.delete_user user_id s).1 = Ok true
  ∧ (Users.controller_delete_user user_id s).1 = Ok ()
  ∧ (Users.get_user user_id (Users.delete_user user_id s).2).1 = Ok None
  ∧ ∀ other, other ≠ user_id →
      (Users.get_user other (Users.delete_user user_id s).2).1
      = (Users.get_user other s).1.
Proof.
  intros H. run_users. rewrite H. simpl. repeat split.
  - by rewrite find_removed.
  - intros other Hne. by rewrite find_other_removed.
Qed.

Lemma delete_user_removes_the_row_witness :
  (Users.delete_user 1
     {| Users.table := [ {| Users.id := Some 1; Users.email := "a@x";
                            Users.username := "a";
                            Users.hashed_password := "" |} ];
        Users.new := []; Users.next_id := 2 |}).1 = Ok true.
Proof.
  exact (proj1 (delete_user_removes_the_row 1
                  {| Users.table := [ {| Users.id := Some 1;
                                         Users.email := "a@x";
                                         Users.username := "a";
                                         Users.hashed_password := "" |} ];
                     Users.new := []; Users.next_id := 2 |}
                  {| Users.id := Some 1; Users.email := "a@x";
                     Users.username := "a"; Users.hashed_password := "" |}
                  eq_refl)).
Defined.

Lemma find_has_id user_id rows u :
  List.find (Users.has_id user_id) rows = Some u → Users.id u = Some user_id.
Proof.
  intros [_ H]%find_some. by apply bool_decide_eq_true in H.
Qed.

(** X23. An update that collides with no other row changes the fields
    that are given and keeps the others; a new password is stored as
    its SHA-256 digest, never as it was given. The updated user is what
    is returned and what a following lookup finds. *)
Theorem update_user_stores_digest user_id user_data s u :
  List.find (Users.has_id user_id) (Users.table s) = Some u →
  Users.collides_with_other (Users.table s) user_id
    (Users.setattrs u (Users.uu_email user_data) (Users.uu_username user_data)
       (Users._hash_password <$> Users.uu_password user_data)) = false →
  ∃ u',
    (Users.update_user user_id user_data s).1 = Ok (Some u')
    ∧ (Users.get_user user_id (Users.update_user user_id user_data s).2).1
      = Ok (Some u')
    ∧ Users.id u' = Some user_id
    ∧ Users.email u' = default (Users.email u) (Users.uu_email user_data)
    ∧ Users.username u'
      = default (Users.username u) (Users.uu_username user_data)
    ∧ Users.hashed_password u'
      = match Users.uu_password user_data with
        | Some password => SHA256.hexdigest (Py.encode password)
        | None => Users.hashed_password u
        end.
Proof.
  intros Hfind Hfree. eexists. run_users. rewrite Hfind. simpl.
  rewrite Hfree. simpl. split; [reflexivity|]. split.
  - f_equal. apply (find_replaced _ u); [|done].
    simpl. by apply find_has_id in Hfind.
  - simpl. repeat split; [by apply find_has_id in Hfind|].
    by destruct (Users.uu_password user_data).
Qed.

Lemma update_user_stores_digest_witness :
  ∃ u',
    (Users.update_user 1
       {| Users.uu_email := None; Users.uu_username := None;
          Users.uu_password := Some "abc" |}
       {| Users.table := [ {| Users.id := Some 1; Users.email := "a@x";
                              Users.username := "a";
                              Users.hashed_password := "" |} ];
          Users.new := []; Users.next_id := 2 |}).1 = Ok (Some u')
    ∧ Users.hashed_password u' = SHA256.hexdigest "abc".
Proof.
  destruct (update_user_stores_digest 1
              {| Users.uu_email := None; Users.uu_username := None;
                 Users.uu_password := Some "abc" |}
              {| Users.table := [ {| Users.id := Some 1; Users.email := "a@x";
                                     Users.username := "a";
                                     Users.hashed_password := "" |} ];
                 Users.new := []; Users.next_id := 2 |}
              {| Users.id := Some 1; Users.email := "a@x";
                 Users.username := "a"; Users.hashed_password := "" |}
              eq_refl eq_refl) as (u' & Hres & _ & _ & _ & _ & Hhash).
  exists u'. by split.
Defined.

(** X24. In a consistent session, an update that would give a user
    the email or the user name of another row raises [IntegrityError]. Unlike the creation it is
    not turned into the business error: nothing catches it, the route
    answers 500, and the table is as it was. *)
Theorem update_user_collision_is_not_caught user_id user_data s u :
  consistent s →
  List.find (Users.has_id user_id) (Users.table s) = Some u →
  Users.collides_with_other (Users.table s) user_id
    (Users.setattrs u (Users.uu_email user_data) (Users.uu_username user_data)
       (Users._hash_password <$> Users.uu_password user_data)) = true →
  ∃ e, Users.update_user user_id user_data s = (Raise e, s)
    ∧ Users.controller_update_user user_id user_data s = (Raise e, s)
    ∧ class_of e = Py.IntegrityError
    ∧ isinstance e Py.ValueError = false
    ∧ Users.local_status (A:=Users.User) 200 (Raise e) = 500%Z.
Proof.
  intros _ Hfind Hdup. eexists. run_users. rewrite Hfind. simpl.
  by rewrite Hdup.
Qed.

Lemma consistent_two_rows :
  consistent
    {| Users.table := [ {| Users.id := Some 1; Users.email := "a@x";
                           Users.username := "a";
                           Users.hashed_password := "" |};
                        {| Users.id := Some 2; Users.email := "b@x";
                           Users.username := "b";
                           Users.hashed_password := "" |} ];
       Users.new := []; Users.next_id := 3 |}.
Proof.
  split; simpl; [done|by apply (bool_decide_unpack _)..|].
  repeat (apply List.Forall_cons; [eexists; split; [reflexivity|lia]|]).
  apply List.Forall_nil.
Qed.

Lemma update_user_collision_is_not_caught_witness :
  ∃ e,
    (Users.controller_update_user 2
       {| Users.uu_email := Some "a@x"; Users.uu_username := None;
          Users.uu_password := None |}
       {| Users.table := [ {| Users.id := Some 1; Users.email := "a@x";
                              Users.username := "a";
                              Users.hashed_password := "" |};
                           {| Users.id := Some 2; Users.email := "b@x";
                              Users.username := "b";
                              Users.hashed_password := "" |} ];
          Users.new := []; Users.next_id := 3 |}).1 = Raise e
    ∧ class_of e = Py.IntegrityError.
Proof.
  destruct (update_user_collision_is_not_caught 2
              {| Users.uu_email := Some "a@x"; Users.uu_username := None;
                 Users.uu_password := None |}
              {| Users.table := [ {| Users.id := Some 1; Users.email := "a@x";
                                     Users.username := "a";
                                     Users.hashed_password := "" |};
                                  {| Users.id := Some 2; Users.email := "b@x";
                                     Users.username := "b";
                                     Users.hashed_password := "" |} ];
                 Users.new := []; Users.next_id := 3 |}
              {| Users.id := Some 2; Users.email := "b@x";
                 Users.username := "b"; Users.hashed_password := "" |}
              consistent_two_rows eq_refl eq_refl)
    as (e & _ & Hres & Hclass & _).
  exists e. split; [by rewrite Hres|done].
Defined.

Lemma elem_of_map {A B} (f : A → B) l y :
  y ∈ map f l ↔ ∃ x, y = f x ∧ x ∈ l.
Proof. apply (list_elem_of_fmap f). Qed.

(** What [create_user] does in a session with nothing pending. *)
Lemma create_user_fresh user_data s :
  Users.new s = [] →
  let row := {| Users.id := Some (Users.next_id s);
                Users.email := Users.uc_email user_data;
                Users.username := Users.uc_username user_data;
                Users.hashed_password :=
                  SHA256.hexdigest
                    (Py.encode (Users.uc_password user_data)) |} in
  Users.create_user user_data s
  = if Users.violates_unique (Users.table s) row then
      (Raise (PyExc Py.ValueError Users.DUPLICATE),
       {| Users.table := Users.table s; Users.new := [];
          Users.next_id := Users.next_id s |})
    else
      (Ok row, {| Users.table := Users.table s ++ [row]; Users.new := [];
                  Users.next_id := Users.next_id s + 1 |}).
Proof.
  intros Hnew row. run_db. rewrite Hnew. simpl.
  unfold Users.violates_unique. simpl.
  destruct (existsb _ _); simpl; [done|].
  rewrite rev_app_distr. simpl. by rewrite String.eqb_refl.
Qed.

Lemma find_app_last {A} (p : A → bool) l x :
  List.find p (l ++ [x])
  = match List.find p l with
    | Some y => Some y
    | None => if p x then Some x else None
    end.
Proof.
  induction l as [|y l IH]; simpl; [done|]. by destruct (p y).
Qed.

Lemma find_none_fresh s :
  Forall (λ r, ∃ k, Users.id r = Some k ∧ k < Users.next_id s)
         (Users.table s) →
  List.find (Users.has_id (Users.next_id s)) (Users.table s) = None.
Proof.
  induction 1 as [|r rows (k & Hk & Hlt) _ IH]; simpl; [done|].
  assert (Users.has_id (Users.next_id s) r = false) as ->; [|done].
  apply bool_decide_eq_false. rewrite Hk. intros [= ->]. lia.
Qed.

Lemma violates_unique_false rows u :
  Users.violates_unique rows u = false →
  ∀ r, r ∈ rows →
    Users.email r ≠ Users.email u ∧ Users.username r ≠ Users.username u.
Proof.
  intros Hfree r Hr. unfold Users.violates_unique in Hfree.
  destruct (decide (Users.email r = Users.email u)) as [He|He];
    [|destruct (decide (Users.username r = Users.username u)) as [Hn|Hn]];
    [| |done].
  - assert (existsb (λ r, String.eqb (Users.email r) (Users.email u)
                          || String.eqb (Users.username r) (Users.username u))
                    rows = true); [|congruence].
    apply existsb_exists. exists r. split; [by apply list_elem_of_In|].
    apply orb_true_iff. left. by apply String.eqb_eq.
  - assert (existsb (λ r, String.eqb (Users.email r) (Users.email u)
                          || String.eqb (Users.username r) (Users.username u))
                    rows = true); [|congruence].
    apply existsb_exists. exists r. split; [by apply list_elem_of_In|].
    apply orb_true_iff. right. by apply String.eqb_eq.
Qed.

Lemma collides_with_other_false rows user_id u :
  Users.collides_with_other rows user_id u = false →
  ∀ r, r ∈ rows → Users.has_id user_id r = false →
    Users.email r ≠ Users.email u ∧ Users.username r ≠ Users.username u.
Proof.
  intros Hfree r Hr Hother. unfold Users.collides_with_other in Hfree.
  destruct (decide (Users.email r = Users.email u)) as [He|He];
    [|destruct (decide (Users.username r = Users.username u)) as [Hn|Hn]];
    [| |done].
  - assert (existsb (λ r, negb (Users.has_id user_id r)
                          && (String.eqb (Users.email r) (Users.email u)
                              || String.eqb (Users.username r)
                                   (Users.username u)))
                    rows = true); [|congruence].
    apply existsb_exists. exists r. split; [by apply list_elem_of_In|].
    rewrite Hother. simpl.
    apply orb_true_iff. left. by apply String.eqb_eq.
  - assert (existsb (λ r, negb (Users.has_id user_id r)
                          && (String.eqb (Users.email r) (Users.email u)
                              || String.eqb (Users.username r)
                                   (Users.username u)))
                    rows = true); [|congruence].
    apply existsb_exists. exists r. split; [by apply list_elem_of_In|].
    rewrite Hother. simpl.
    apply orb_true_iff. right. by apply String.eqb_eq.
Qed.

(** X26. In a consistent session, a user whose email and user name
    are both free is created under the next identifier, and is then
    what the lookups by that identifier, by its email and by its user
    name return; a user that was found under an identifier before is
    still found under it. *)
Theorem create_user_then_get user_data s :
  consistent s →
  Users.violates_unique (Users.table s)
    {| Users.id := None; Users.email := Users.uc_email user_data;
       Users.username := Users.uc_username user_data;
       Users.hashed_password := "" |} = false →
  ∃ u,
    (Users.create_user user_data s).1 = Ok u
    ∧ Users.id u = Some (Users.next_id s)
    ∧ (Users.get_user (Users.next_id s)
         (Users.create_user user_data s).2).1 = Ok (Some u)
    ∧ (Users.get_by_email (Users.uc_email user_data)
         (Users.create_user user_data s).2).1 = Ok (Some u)
    ∧ (Users.get_by_username (Users.uc_username user_data)
         (Users.create_user user_data s).2).1 = Ok (Some u)
    ∧ ∀ other v,
        (Users.get_user other s).1 = Ok (Some v) →
        (Users.get_user other (Users.create_user user_data s).2).1
        = Ok (Some v).
Proof.
  intros Hs Hfree. rewrite (create_user_fresh _ _ (c_new _ Hs)).
  pose proof (violates_unique_false _ _ Hfree) as Hrows. simpl in Hrows.
  unfold Users.violates_unique in *. simpl in *. rewrite Hfree.
  eexists. split; [reflexivity|]. split; [reflexivity|].
  unfold Users.get_user, Users.get_by_id, Users.get_by_email,
    Users.get_by_username. simpl. repeat split.
  - rewrite find_app_last, (find_none_fresh _ (c_fresh _ Hs)).
    unfold Users.has_id. simpl. by rewrite bool_decide_true.
  - rewrite find_app_last. simpl. rewrite String.eqb_refl.
    destruct (List.find _ _) as [r|] eqn:Hr; [|done].
    apply find_some in Hr as [Hin Heq]. apply String.eqb_eq in Heq.
    apply list_elem_of_In in Hin. by destruct (Hrows r Hin).
  - rewrite find_app_last. simpl. rewrite String.eqb_refl.
    destruct (List.find _ _) as [r|] eqn:Hr; [|done].
    apply find_some in Hr as [Hin Heq]. apply String.eqb_eq in Heq.
    apply list_elem_of_In in Hin. by destruct (Hrows r Hin).
  - intros other v [= Hv]. by rewrite find_app_last, Hv.
Qed.

Lemma consistent_empty :
  consistent {| Users.table := []; Users.new := []; Users.next_id := 1 |}.
Proof. split; simpl; constructor. Qed.

Lemma create_user_then_get_witness :
  ∃ u,
    (Users.create_user
       {| Users.uc_email := "a@x"; Users.uc_username := "a";
          Users.uc_password := "abc" |}
       {| Users.table := []; Users.new := []; Users.next_id := 1 |}).1 = Ok u
    ∧ Users.id u = Some 1.
Proof.
  destruct (create_user_then_get
              {| Users.uc_email := "a@x"; Users.uc_username := "a";
                 Users.uc_password := "abc" |}
              {| Users.table := []; Users.new := []; Users.next_id := 1 |}
              consistent_empty eq_refl) as (u & Hres & Hid & _).
  exists u. by split.
Defined.

(** Keys of a table after rows were added, replaced or removed. *)
Lemma elem_of_map_filter {K} (p : Users.User → K) q rows x :
  x ∈ map p (List.filter q rows) → x ∈ map p rows.
Proof.
  intros (r & -> & Hr)%elem_of_map.
  apply elem_of_map. exists r. split; [done|].
  apply list_elem_of_In in Hr. apply filter_In in Hr as [Hr _].
  by apply list_elem_of_In.
Qed.

Lemma NoDup_map_filter {K} (p : Users.User → K) q rows :
  NoDup (map p rows) → NoDup (map p (List.filter q rows)).
Proof.
  induction rows as [|r rows IH]; simpl; [done|].
  intros [Hr Hrows]%NoDup_cons. destruct (q r); simpl; [|by apply IH].
  apply NoDup_cons. split; [|by apply IH].
  intros Hin. by apply Hr, (elem_of_map_filter p q).
Qed.

Lemma map_replaced_absent user_id (u' : Users.User) rows :
  Users.id u' = Some user_id →
  Some user_id ∉ map Users.id rows →
  map (λ r, if Users.has_id user_id r then u' else r) rows = rows.
Proof.
  intros _. induction rows as [|r rows IH]; simpl; [done|].
  intros [Hr Hrows]%not_elem_of_cons.
  assert (Users.has_id user_id r = false) as ->
    by (apply bool_decide_eq_false; congruence).
  by rewrite IH.
Qed.

Lemma map_id_replaced user_id (u' : Users.User) rows :
  Users.id u' = Some user_id →
  map Users.id (map (λ r, if Users.has_id user_id r then u' else r) rows)
  = map Users.id rows.
Proof.
  intros Hid. induction rows as [|r rows IH]; simpl; [done|].
  rewrite IH. f_equal.
  destruct (Users.has_id user_id r) eqn:Hr; [|done].
  apply bool_decide_eq_true in Hr. congruence.
Qed.

Lemma NoDup_map_replaced {K} (p : Users.User → K) user_id u' rows :
  Users.id u' = Some user_id →
  NoDup (map Users.id rows) → NoDup (map p rows) →
  (∀ r, r ∈ rows → Users.has_id user_id r = false → p r ≠ p u') →
  NoDup (map p (map (λ r, if Users.has_id user_id r then u' else r) rows)).
Proof.
  intros Hid. induction rows as [|r rows IH]; simpl; [done|].
  intros [Hr Hids]%NoDup_cons [Hpr Hp]%NoDup_cons Hother.
  destruct (Users.has_id user_id r) eqn:Hhas.
  - apply bool_decide_eq_true in Hhas. rewrite Hhas in Hr.
    rewrite (map_replaced_absent _ _ _ Hid Hr).
    apply NoDup_cons. split; [|done].
    intros (x & Hx & Hin)%elem_of_map.
    apply (Hother x); [by right| |done].
    apply bool_decide_eq_false. intros Hxid. apply Hr.
    rewrite <- Hxid. apply elem_of_map; by eauto.
  - apply NoDup_cons. split.
    + intros (x & Hx & Hin)%elem_of_map.
      apply elem_of_map in Hin as (y & -> & Hy).
      destruct (Users.has_id user_id y).
      * by apply (Hother r); [left| |].
      * apply Hpr. rewrite Hx. apply elem_of_map; by eauto.
    + apply IH; [done..|]. intros x Hx. apply Hother. by right.
Qed.

Lemma consistent_create user_data s :
  consistent s → consistent (Users.create_user user_data s).2.
Proof.
  intros [Hnew He Hn Hi Hf]. rewrite (create_user_fresh _ _ Hnew).
  destruct (Users.violates_unique _ _) eqn:Hfree; [by split|].
  pose proof (violates_unique_false _ _ Hfree) as Hrows. simpl in Hrows.
  split; simpl; [done|..].
  - rewrite map_app. apply NoDup_app. split; [done|]. split.
    + intros e (r & -> & Hr)%elem_of_map.
      intros Heq%list_elem_of_singleton.
      destruct (Hrows r Hr) as [H1 H2]. by first [apply H1 | apply H2].
    + apply NoDup_singleton.
  - rewrite map_app. apply NoDup_app. split; [done|]. split.
    + intros e (r & -> & Hr)%elem_of_map.
      intros Heq%list_elem_of_singleton.
      destruct (Hrows r Hr) as [H1 H2]. by first [apply H1 | apply H2].
    + apply NoDup_singleton.
  - rewrite map_app. apply NoDup_app. split; [done|]. split.
    + intros e (r & -> & Hr)%elem_of_map.
      intros Hid%list_elem_of_singleton. simpl in Hid.
      rewrite Forall_forall in Hf. destruct (Hf r Hr) as (k & Hk & Hlt).
      rewrite Hk in Hid. injection Hid as ->. lia.
    + apply NoDup_singleton.
  - apply Forall_app. split.
    + eapply Forall_impl; [exact Hf|]. intros r (k & Hk & Hlt).
      exists k. split; [done|lia].
    + apply Forall_singleton. simpl. eexists. split; [reflexivity|lia].
Qed.

Lemma consistent_update user_id user_data s :
  consistent s → consistent (Users.update_user user_id user_data s).2.
Proof.
  intros [Hnew He Hn Hi Hf]. run_users.
  destruct (List.find _ _) as [u|] eqn:Hfind; simpl; [|by split].
  destruct (Users.collides_with_other _ _ _) eqn:Hfree; simpl; [by split|].
  pose proof (collides_with_other_false _ _ _ Hfree) as Hrows.
  pose proof (find_has_id _ _ _ Hfind) as Hid.
  split; simpl; [done|..].
  - apply NoDup_map_replaced; [done..|].
    intros r Hr Hother. by destruct (Hrows r Hr Hother).
  - apply NoDup_map_replaced; [done..|].
    intros r Hr Hother. by destruct (Hrows r Hr Hother).
  - by rewrite map_id_replaced.
  - apply Forall_forall. intros r (x & -> & Hx)%elem_of_map.
    rewrite Forall_forall in Hf.
    destruct (Users.has_id user_id x) eqn:Hhas; [|by apply Hf].
    apply bool_decide_eq_true in Hhas. simpl.
    destruct (Hf x Hx) as (k & Hk & Hlt). exists k. split; [|done].
    congruence.
Qed.

Lemma consistent_delete user_id s :
  consistent s → consistent (Users.delete_user user_id s).2.
Proof.
  intros [Hnew He Hn Hi Hf]. run_users.
  destruct (List.find _ _) as [u|]; simpl; [|by split].
  split; simpl; [done|by apply NoDup_map_filter..|].
  apply Forall_forall. intros r Hr. rewrite Forall_forall in Hf. apply Hf.
  apply list_elem_of_In in Hr. apply filter_In in Hr as [Hr _].
  by apply list_elem_of_In.
Qed.

(** X27. The user service keeps the table consistent. After
    [create_user], whether it returned or raised its [ValueError]
    (which follows the rollback), after an [update_user] that returned,
    and after [delete_user], nothing is pending, no two rows share an
    email, a user name or an identifier, and every identifier is below
    the next one to be handed out. Nothing is said of the session after
    an [update_user] that raised. *)
Theorem user_service_keeps_table_consistent s :
  consistent s →
  (∀ user_data, consistent (Users.create_user user_data s).2)
  ∧ (∀ user_id user_data result,
       (Users.update_user user_id user_data s).1 = Ok result →
       consistent (Users.update_user user_id user_data s).2)
  ∧ (∀ user_id, consistent (Users.delete_user user_id s).2).
Proof.
  intros Hs. split; [|split].
  - intros user_data. by apply consistent_create.
  - intros user_id user_data result _. by apply consistent_update.
  - intros user_id. by apply consistent_delete.
Qed.

Lemma user_service_keeps_table_consistent_witness :
  consistent
    (Users.update_user 2
       {| Users.uu_email := Some "c@x"; Users.uu_username := None;
          Users.uu_password := Some "abc" |}
       {| Users.table := [ {| Users.id := Some 1; Users.email := "a@x";
                              Users.username := "a";
                              Users.hashed_password := "" |};
                           {| Users.id := Some 2; Users.email := "b@x";
                              Users.username := "b";
                              Users.hashed_password := "" |} ];
          Users.new := []; Users.next_id := 3 |}).2
  ∧ consistent
      (Users.delete_user 1
         {| Users.table := [ {| Users.id := Some 1; Users.email := "a@x";
                                Users.username := "a";
                                Users.hashed_password := "" |};
                             {| Users.id := Some 2; Users.email := "b@x";
                                Users.username := "b";
                                Users.hashed_password := "" |} ];
            Users.new := []; Users.next_id := 3 |}).2
  ∧ consistent
      (Users.create_user
         {| Users.uc_email := "a@x"; Users.uc_username := "z";
            Users.uc_password := "abc" |}
         {| Users.table := [ {| Users.id := Some 1; Users.email := "a@x";
                                Users.username := "a";
                                Users.hashed_password := "" |};
                             {| Users.id := Some 2; Users.email := "b@x";
                                Users.username := "b";
                                Users.hashed_password := "" |} ];
            Users.new := []; Users.next_id := 3 |}).2.
Proof.
  destruct (user_service_keeps_table_consistent _ consistent_two_rows)
    as (Hcreate & Hupdate & Hdelete).
  split; [|split].
  - refine (Hupdate 2 _ _ _). by vm_compute.
  - exact (Hdelete 1).
  - exact (Hcreate _).
Defined.
